(** * FaceDetection: a shallow embedding of [file_upload.py] and
      [face_detection.py]

    The two scripts are sequential glue around external services (the S3
    client of the cloud SDK, the local file system, the console, a
    face-recognition library).  The embedding keeps the control flow of the
    Python functions and makes the services explicit:

    - every call that leaves the script is recorded, in program order, as an
      [event] of the [trace] of the [world];
    - what a service answers (a value, or a raised exception) is decided by
      an environment ([Services]) that sees the whole history so far, so a
      theorem quantified over the environment covers every pattern of
      failures the SDK can produce;
    - the local file system is a finite map from paths to bytes. *)

From Stdlib Require Import ZArith Lia Strings.Ascii Strings.String Strings.Byte.
From stdpp Require Import gmap strings list.
From Equations Require Import Equations.

Local Open Scope Z_scope.

(** ** Python strings *)

Module Py.

(** The double-quote character, used when an f-string or a template
    contains one. *)
Definition dq : string := String "034"%char EmptyString.

(** [str.lower()].  Strings are byte strings (UTF-8); the letters A-Z are
    mapped to a-z and every other byte is kept.  The only code points
    outside ASCII whose lower case is an ASCII letter are U+212A (k) and
    U+0130 (i + U+0307): neither can complete the suffixes tested in this
    program. *)
Definition lower_char (c : ascii) : ascii :=
  let n := N_of_ascii c in
  if ((65 <=? n) && (n <=? 90))%N then ascii_of_N (n + 32) else c.

Fixpoint lower (s : string) : string :=
  match s with
  | EmptyString => EmptyString
  | String c s' => String (lower_char c) (lower s')
  end.

(** The slice [s[n:]]. *)
Fixpoint slice_from (n : nat) (s : string) : string :=
  match n, s with
  | O, _ => s
  | S n', String _ s' => slice_from n' s'
  | S _, EmptyString => EmptyString
  end.

(** [s.endswith(suffix)]: [len(suffix) <= len(s)] and
    [s[len(s) - len(suffix):] == suffix]. *)
Definition endswith (s suffix : string) : bool :=
  (String.length suffix <=? String.length s)%nat
  && String.eqb (slice_from (String.length s - String.length suffix) s) suffix.

(** Truth value of a [str] in an [if]. *)
Definition truthy (s : string) : bool :=
  match s with EmptyString => false | String _ _ => true end.

(** White space as [str.strip()] sees it.  A string holds the UTF-8 bytes
    of a Python [str]; the white-space characters are U+0009-000D,
    U+001C-0020, U+0085, U+00A0, U+1680, U+2000-200A, U+2028, U+2029, U+202F,
    U+205F and U+3000, which take one, two or three bytes. *)
Definition is_space1 (c : ascii) : bool :=
  let n := N_of_ascii c in
  (((9 <=? n) && (n <=? 13)) || ((28 <=? n) && (n <=? 32)))%N.

(** C2 85 and C2 A0. *)
Definition is_space2 (c1 c2 : ascii) : bool :=
  let n1 := N_of_ascii c1 in
  let n2 := N_of_ascii c2 in
  ((n1 =? 194) && ((n2 =? 133) || (n2 =? 160)))%N.

(** E1 9A 80; E2 80 80 to E2 80 8A, E2 80 A8, E2 80 A9, E2 80 AF;
    E2 81 9F; E3 80 80. *)
Definition is_space3 (c1 c2 c3 : ascii) : bool :=
  let n1 := N_of_ascii c1 in
  let n2 := N_of_ascii c2 in
  let n3 := N_of_ascii c3 in
  (((n1 =? 225) && (n2 =? 154) && (n3 =? 128))
   || ((n1 =? 226) && (n2 =? 128)
       && (((128 <=? n3) && (n3 <=? 138))
           || (n3 =? 168) || (n3 =? 169) || (n3 =? 175)))
   || ((n1 =? 226) && (n2 =? 129) && (n3 =? 159))
   || ((n1 =? 227) && (n2 =? 128) && (n3 =? 128)))%N.

(** [s.lstrip()]: white-space characters are dropped from the front. *)
Fixpoint lstrip (s : string) : string :=
  match s with
  | EmptyString => EmptyString
  | String c1 s1 =>
      if is_space1 c1 then lstrip s1
      else
        match s1 with
        | EmptyString => s
        | String c2 s2 =>
            if is_space2 c1 c2 then lstrip s2
            else
              match s2 with
              | EmptyString => s
              | String c3 s3 => if is_space3 c1 c2 c3 then lstrip s3 else s
              end
        end
  end.

(** [s.rstrip()] on the reversed bytes of [s]: the bytes of a character
    come last byte first. *)
Fixpoint rstrip_rev (r : string) : string :=
  match r with
  | EmptyString => EmptyString
  | String c3 r1 =>
      if is_space1 c3 then rstrip_rev r1
      else
        match r1 with
        | EmptyString => r
        | String c2 r2 =>
            if is_space2 c2 c3 then rstrip_rev r2
            else
              match r2 with
              | EmptyString => r
              | String c1 r3 => if is_space3 c1 c2 c3 then rstrip_rev r3 else r
              end
        end
  end.

Definition strip (s : string) : string :=
  String.rev (rstrip_rev (String.rev (lstrip s))).

End Py.

(** ** The content type chosen by [multipart_upload] (line 22) *)

Definition content_type (object_name : string) : string :=
  if Py.endswith (Py.lower object_name) ".jpg"
     || Py.endswith (Py.lower object_name) ".jpeg"
  then "image/jpeg" else "image/png".

(** The claim's wording: the name ends, up to case, with the extension. *)
Definition ends_with_ci (name ext : string) : Prop :=
  exists stem tail, name = stem +:+ tail /\ Py.lower tail = ext.

(** ** Exceptions, results, events *)

(** Every exception modelled here derives from [Exception]; the only
    distinction the program makes is whether it is a botocore
    [ClientError] (line 65). *)
Inductive exn_class : Type := ClientError | OtherException.

Record exn : Type := Exn { exn_class_of : exn_class; exn_str : string }.

Inductive result (A : Type) : Type :=
| Returns (a : A)
| Raises (e : exn).
Arguments Returns {A} a.
Arguments Raises {A} e.

Definition returned {A} (r : result A) : bool :=
  match r with Returns _ => true | Raises _ => false end.

(** An element of the ['Parts'] list, [{'ETag': ..., 'PartNumber': ...}]. *)
Record part : Type := Part { ETag : string; PartNumber : Z }.

(** An uploaded file of the form: [file.name] and the bytes of
    [file.read()]. *)
Record UploadedFile : Type := File { name : string; data : list byte }.

Inductive event : Type :=
| EvUuid4 (session_id : string)
| EvWrite (path : string) (content : list byte)
| EvRemove (path : string)
| EvPrint (text : string)
| EvCreateMultipartUpload (Bucket Key ContentType : string)
    (out : result string)
| EvUploadPart (Bucket Key : string) (part_number : Z) (UploadId : string)
    (Body : list byte) (out : result string)
| EvCompleteMultipartUpload (Bucket Key : string) (Parts : list part)
    (UploadId : string) (out : result unit)
| EvAbortMultipartUpload (Bucket Key UploadId : string) (out : result unit)
| EvGeneratePresignedUrl (Bucket Key : string) (ExpiresIn : Z)
    (out : result string)
| EvUploadFile (Filename Bucket Key ContentType : string)
    (Body : list byte) (out : result unit).

(** The environment of the script: [uuid.uuid4] and the methods of
    [s3_client].  Each sees the history of events so far.  A response is
    reduced to the field the program reads from it ([response['UploadId']],
    [part_response['ETag']], the URL). *)
Record Services : Type := {
  uuid4 : list event -> string;
  s3_create_multipart_upload :
    list event -> string -> string -> string -> result string;
  s3_upload_part :
    list event -> string -> string -> Z -> string -> list byte ->
    result string;
  s3_complete_multipart_upload :
    list event -> string -> string -> list part -> string -> result unit;
  s3_abort_multipart_upload :
    list event -> string -> string -> string -> result unit;
  s3_generate_presigned_url :
    list event -> string -> string -> Z -> result string;
  s3_upload_file :
    list event -> string -> string -> string -> string -> list byte ->
    result unit
}.

(** ** The world and the monad of the script *)

Record world : Type := World {
  fs : gmap string (list byte);
  trace : list event
}.

Definition M (A : Type) : Type := world -> result A * world.

Definition ret {A} (a : A) : M A := fun w => (Returns a, w).

Definition raise {A} (e : exn) : M A := fun w => (Raises e, w).

Definition bind {A B} (m : M A) (k : A -> M B) : M B :=
  fun w =>
    match m w with
    | (Returns a, w') => k a w'
    | (Raises e, w') => (Raises e, w')
    end.

Declare Scope py_scope.
Delimit Scope py_scope with py.
Notation "x <- m ;; k" := (bind m (fun x => k))
  (at level 100, m at next level, right associativity) : py_scope.
Notation "m ;; k" := (bind m (fun _ => k))
  (at level 100, right associativity) : py_scope.
Local Open Scope py_scope.

Definition log (e : event) (w : world) : world :=
  {| fs := fs w; trace := trace w ++ [e] |}.

(** A call to the environment: the answer is computed from the history and
    recorded together with the call. *)
Definition call {A} (answer : list event -> result A)
    (record : result A -> event) : M A :=
  fun w => let r := answer (trace w) in (r, log (record r) w).

Definition print (text : string) : M unit :=
  fun w => (Returns tt, log (EvPrint text) w).

(** ** The local file system *)

(** The exception of [open] and [os.remove] for a path that does not
    exist.  It is never a [ClientError]; its text, which the program only
    prints, quotes the path the plain way, as Python does for a name without
    quote or backslash. *)
Definition FileNotFoundError (path : string) : exn :=
  Exn OtherException
    ("[Errno 2] No such file or directory: '" +:+ path +:+ "'").

(** [with open(path, "wb") as f: f.write(content)] (also mode ["w"]).
    Assumption: the write succeeds, that is, the working directory is
    writable, the name is one the system can create and the text of the page
    can be encoded. *)
Definition write_file (path : string) (content : list byte) : M unit :=
  fun w =>
    (Returns tt,
     {| fs := <[path := content]> (fs w);
        trace := trace w ++ [EvWrite path content] |}).

(** [open(path, 'rb')] followed by reads to the end of the file. *)
Definition open_rb (path : string) : M (list byte) :=
  fun w =>
    match fs w !! path with
    | Some content => (Returns content, w)
    | None => (Raises (FileNotFoundError path), w)
    end.

(** [os.remove(path)]. *)
Definition os_remove (path : string) : M unit :=
  fun w =>
    match fs w !! path with
    | Some _ =>
        (Returns tt,
         {| fs := delete path (fs w); trace := trace w ++ [EvRemove path] |})
    | None => (Raises (FileNotFoundError path), w)
    end.

(** ** Chunked reading: [iter(lambda: file.read(chunk_size), b'')] *)

(** [file.read(size)] on the unread rest of the file: the bytes read and
    the bytes left.  A negative size reads to the end. *)
Definition file_read (size : Z) (rest : list byte) : list byte * list byte :=
  if size <? 0 then (rest, [])
  else (take (Z.to_nat size) rest, drop (Z.to_nat size) rest).

Definition inspect {A} (a : A) : {b : A | a = b} := exist _ a eq_refl.

(** The chunks the iterator yields: reads are repeated until one returns
    the sentinel [b'']. *)
Equations? iter_read (size : Z) (rest : list byte) : list (list byte)
  by wf (length rest) lt :=
  iter_read size rest with inspect (file_read size rest).1 := {
    | @exist [] _ := [];
    | @exist (b :: chunk) Hread :=
        (b :: chunk) :: iter_read size (file_read size rest).2 }.
Proof.
  clear iter_read. revert Hread. unfold file_read.
  destruct (size <? 0); simpl; intros Hread.
  - rewrite Hread. simpl. lia.
  - assert (Hlen : (0 < length (take (Z.to_nat size) rest))%nat)
      by (rewrite Hread; simpl; lia).
    rewrite length_take in Hlen. rewrite length_drop. lia.
Qed.

(** [enumerate(items, start)]. *)
Fixpoint enumerate {A} (items : list A) (start : Z) : list (Z * A) :=
  match items with
  | [] => []
  | x :: items' => (start, x) :: enumerate items' (start + 1)
  end.

Definition chunk_size : Z := 5 * 1024 * 1024.

(** ** The HTML page of [create_preview_html] (lines 72-128) *)

Definition html_head : string :=
  "<!DOCTYPE html>
<html lang=" +:+ Py.dq +:+ "en" +:+ Py.dq +:+ ">
<head>
    <meta charset=" +:+ Py.dq +:+ "UTF-8" +:+ Py.dq +:+ ">
    <meta name=" +:+ Py.dq +:+ "viewport" +:+ Py.dq +:+ " content=" +:+ Py.dq +:+ "width=device-width, initial-scale=1.0" +:+ Py.dq +:+ ">
    <title>Image Gallery</title>
    <style>
        body { font-family: Arial, sans-serif; text-align: center; }
        h2 { color: #333; }
        .gallery { display: flex; flex-wrap: wrap; justify-content: center; gap: 20px; }
        .image-container {
            display: flex;
            flex-direction: column;
            align-items: center;
            border: 1px solid #ddd;
            padding: 10px;
            border-radius: 10px;
            box-shadow: 0px 4px 6px rgba(0, 0, 0, 0.2);
            background: #fff;
        }
        .gallery img { width: 200px; height: auto; border-radius: 10px; cursor: pointer; }
        .btn-group { margin-top: 10px; display: flex; gap: 10px; }
        .btn {
            padding: 8px 15px;
            border: none;
            border-radius: 5px;
            cursor: pointer;
            font-size: 14px;
        }
        .view-btn { background: #007bff; color: white; text-decoration: none; }
        .download-btn { background: #28a745; color: white; text-decoration: none; }
        .btn:hover { opacity: 0.8; }
    </style>
</head>
<body>
    <h2>Uploaded Images</h2>
    <div class=" +:+ Py.dq +:+ "gallery" +:+ Py.dq +:+ ">
".

(** The f-string appended for one link (lines 112-122). *)
Definition html_entry (link : string) : string :=
  "
        <div class=" +:+ Py.dq +:+ "image-container" +:+ Py.dq +:+ ">
            <a href=" +:+ Py.dq +:+ link +:+ Py.dq +:+ " target=" +:+ Py.dq +:+ "_blank" +:+ Py.dq +:+ ">
                <img src=" +:+ Py.dq +:+ link +:+ Py.dq +:+ " alt=" +:+ Py.dq +:+ "Uploaded Image" +:+ Py.dq +:+ ">
            </a>
            <div class=" +:+ Py.dq +:+ "btn-group" +:+ Py.dq +:+ ">
                <a href=" +:+ Py.dq +:+ link +:+ Py.dq +:+ " target=" +:+ Py.dq +:+ "_blank" +:+ Py.dq +:+ " class=" +:+ Py.dq +:+ "btn view-btn" +:+ Py.dq +:+ ">🔍 View</a>
                <a href=" +:+ Py.dq +:+ link +:+ Py.dq +:+ " download class=" +:+ Py.dq +:+ "btn download-btn" +:+ Py.dq +:+ ">⬇ Download</a>
            </div>
        </div>
        ".

Definition html_tail : string :=
  "
    </div>
</body>
</html>
".

(** What the Streamlit page shows after the Upload button. *)
Inductive widget : Type :=
| st_error (text : string)
| st_success (text : string)
| st_write (text : string)
| st_markdown (text : string)
| st_warning (text : string).

(** ** [file_upload.py] *)

Section FileUpload.

Variable env : Services.

(** *** The calls on [s3_client] *)

Definition create_multipart_upload (Bucket Key ContentType : string)
    : M string :=
  call (fun h => s3_create_multipart_upload env h Bucket Key ContentType)
       (EvCreateMultipartUpload Bucket Key ContentType).

Definition upload_part (Bucket Key : string) (part_number : Z)
    (UploadId : string) (Body : list byte) : M string :=
  call (fun h => s3_upload_part env h Bucket Key part_number UploadId Body)
       (EvUploadPart Bucket Key part_number UploadId Body).

Definition complete_multipart_upload (Bucket Key : string)
    (Parts : list part) (UploadId : string) : M unit :=
  call (fun h => s3_complete_multipart_upload env h Bucket Key Parts UploadId)
       (EvCompleteMultipartUpload Bucket Key Parts UploadId).

Definition abort_multipart_upload (Bucket Key UploadId : string) : M unit :=
  call (fun h => s3_abort_multipart_upload env h Bucket Key UploadId)
       (EvAbortMultipartUpload Bucket Key UploadId).

Definition client_generate_presigned_url (Bucket Key : string)
    (ExpiresIn : Z) : M string :=
  call (fun h => s3_generate_presigned_url env h Bucket Key ExpiresIn)
       (EvGeneratePresignedUrl Bucket Key ExpiresIn).

(** [s3_client.upload_file(Filename, Bucket, Key, ExtraArgs=...)] reads
    the local file and sends it. *)
Definition upload_file (Filename Bucket Key ContentType : string) : M unit :=
  Body <- open_rb Filename ;;
  call (fun h => s3_upload_file env h Filename Bucket Key ContentType Body)
       (EvUploadFile Filename Bucket Key ContentType Body).

(** *** [multipart_upload] (lines 15-52) *)

(** The [for] loop of lines 29-37 over the enumerated chunks; [parts] is
    the list built so far. *)
Fixpoint upload_parts (bucket_name full_object_name upload_id : string)
    (items : list (Z * list byte)) (parts : list part) : M (list part) :=
  match items with
  | [] => ret parts
  | (part_number, chunk) :: items' =>
      etag <- upload_part bucket_name full_object_name part_number
                upload_id chunk ;;
      upload_parts bucket_name full_object_name upload_id items'
        (parts ++ [Part etag part_number])
  end.

(** Lines 26-46, once [upload_id] is bound. *)
Definition multipart_upload_parts (file_path bucket_name full_object_name
    upload_id : string) : M string :=
  content <- open_rb file_path ;;
  parts <- upload_parts bucket_name full_object_name upload_id
             (enumerate (iter_read chunk_size content) 1) [] ;;
  complete_multipart_upload bucket_name full_object_name parts upload_id ;;
  ret full_object_name.

(** The [try] block (lines 18-46).  Beside the outcome it gives the
    binding of the local [upload_id] when the block is left, which is what
    ['upload_id' in locals()] looks at. *)
Definition multipart_upload_try (file_path bucket_name full_object_name
    object_name : string) (w : world)
    : option string * (result string * world) :=
  match create_multipart_upload bucket_name full_object_name
          (content_type object_name) w with
  | (Raises e, w1) => (None, (Raises e, w1))
  | (Returns upload_id, w1) =>
      (Some upload_id,
       multipart_upload_parts file_path bucket_name full_object_name
         upload_id w1)
  end.

(** The [except Exception as e] handler (lines 48-52). *)
Definition multipart_upload_except (bucket_name full_object_name
    object_name : string) (upload_id : option string) (e : exn)
    : M (option string) :=
  print ("Error uploading " +:+ object_name +:+ ": " +:+ exn_str e) ;;
  match upload_id with
  | Some uid => abort_multipart_upload bucket_name full_object_name uid
  | None => ret tt
  end ;;
  ret None.

Definition multipart_upload (file_path bucket_name folder_name
    object_name : string) : M (option string) :=
  fun w =>
    let full_object_name := folder_name +:+ "/" +:+ object_name in
    match multipart_upload_try file_path bucket_name full_object_name
            object_name w with
    | (_, (Returns path, w')) => (Returns (Some path), w')
    | (upload_id, (Raises e, w')) =>
        multipart_upload_except bucket_name full_object_name object_name
          upload_id e w'
    end.

(** *** [generate_presigned_url] (lines 56-67) *)

Definition generate_presigned_url (bucket_name object_name : string)
    (expiration : Z) : M (option string) :=
  fun w =>
    match client_generate_presigned_url bucket_name object_name
            expiration w with
    | (Returns url, w') => (Returns (Some url), w')
    | (Raises e, w') =>
        match exn_class_of e with
        | ClientError =>
            (print ("Error generating pre-signed URL: " +:+ exn_str e) ;;
             ret None) w'
        | OtherException => (Raises e, w')
        end
    end.

(** *** [create_preview_html] (lines 70-141) *)

Definition html_content (image_links : list string) : string :=
  foldl (fun html link => html +:+ html_entry link) html_head image_links
  +:+ html_tail.

(** The page is written in text mode; its bytes are taken to be the UTF-8
    bytes of the text. *)
Definition create_preview_html (image_links : list string)
    (bucket_name folder_name : string) : M string :=
  let html_file_name := folder_name +:+ "/gallery.html" in
  write_file "gallery.html"
    (String.list_byte_of_string (html_content image_links)) ;;
  upload_file "gallery.html" bucket_name html_file_name "text/html" ;;
  os_remove "gallery.html" ;;
  ret html_file_name.

(** *** [upload_multiple_images_to_s3] (lines 144-167) *)

(** The body of the [for file in files] loop (lines 151-161), from the
    current [image_links] to the next. *)
Definition upload_one (bucket_name folder_name : string)
    (file : UploadedFile) (image_links : list string) : M (list string) :=
  let object_name := name file in
  write_file (name file) (data file) ;;
  object_path <- multipart_upload (name file) bucket_name folder_name
                   object_name ;;
  image_links' <-
    match object_path with
    | Some path =>
        if Py.truthy path then
          presigned_url <- generate_presigned_url bucket_name path 3600 ;;
          match presigned_url with
          | Some url =>
              if Py.truthy url then ret (image_links ++ [url])
              else ret image_links
          | None => ret image_links
          end
        else ret image_links
    | None => ret image_links
    end ;;
  os_remove (name file) ;;
  ret image_links'.

Fixpoint upload_loop (bucket_name folder_name : string)
    (files : list UploadedFile) (image_links : list string)
    : M (list string) :=
  match files with
  | [] => ret image_links
  | file :: files' =>
      image_links' <- upload_one bucket_name folder_name file image_links ;;
      upload_loop bucket_name folder_name files' image_links'
  end.

Definition new_session : M string :=
  fun w => let session_id := uuid4 env (trace w) in
           (Returns session_id, log (EvUuid4 session_id) w).

Definition upload_multiple_images_to_s3 (files : list UploadedFile)
    (bucket_name : string) : M (option string) :=
  session_id <- new_session ;;
  let folder_name := "uploads/" +:+ session_id in
  image_links <- upload_loop bucket_name folder_name files [] ;;
  html_object_path <- create_preview_html image_links bucket_name
                        folder_name ;;
  generate_presigned_url bucket_name html_object_path 3600.

(** *** The Streamlit form (lines 176-190) *)

(** What happens when the Upload button is pressed. *)
Definition on_upload (bucket_name : string)
    (uploaded_files : list UploadedFile) : M (list widget) :=
  if negb (Py.truthy (Py.strip bucket_name)) then
    ret [st_error "Please enter a valid bucket name."]
  else
    match uploaded_files with
    | _ :: _ =>
        gallery_link <- upload_multiple_images_to_s3 uploaded_files
                          bucket_name ;;
        match gallery_link with
        | Some link =>
            if Py.truthy link then
              ret [st_success "Files uploaded successfully!";
                   st_write "### View Uploaded Images:";
                   st_markdown ("[Click to View Image Gallery](" +:+ link
                                +:+ ")")]
            else ret [st_error "Failed to generate a preview link."]
        | None => ret [st_error "Failed to generate a preview link."]
        end
    | [] => ret [st_warning "Please upload at least one file."]
    end.

End FileUpload.

(** ** [face_detection.py] *)

Module FaceDetection.

(** The part of the dictionary returned by [DeepFace.verify] that the
    script reads: [out["facial_areas"]["img1"].values()], in the order of
    the dictionary, and the text [print] shows for the whole result. *)
Record verify_out : Type := VerifyOut {
  facial_areas_img1 : list Z;
  verify_text : string
}.

(** An argument of [print]. *)
Inductive printed : Type :=
| PVerify (out : verify_out)
| PStr (s : string)
| PInt (z : Z)
| PFrame (text : string).

Section Script.

(** Images as [cv2] handles them. *)
Variable image : Type.

Inductive action : Type :=
| DeepFace_verify (img1_path img2_path : string)
    (out : result verify_out)
| DeepFace_find (img_path db_path : string) (out : result (list string))
| Print (items : list printed)
| cv2_imread (path : string) (out : option image)
| cv2_rectangle (img : image) (pt1 pt2 : Z * Z) (color : Z * Z * Z)
    (thickness : Z)
| cv2_imshow (img : image).

(** The libraries: what [DeepFace] answers, what [cv2.imread] loads
    ([None] for an unreadable file) and the image [cv2.rectangle]
    gives back. *)
Record Library : Type := {
  verify : string -> string -> result verify_out;
  find : string -> string -> result (list string);
  imread : string -> option image;
  rectangle : image -> Z * Z -> Z * Z -> Z * Z * Z -> Z -> image
}.

Variable lib : Library.

Definition Script (A : Type) : Type :=
  list action -> result A * list action.

Definition sret {A} (a : A) : Script A := fun t => (Returns a, t).

Definition sbind {A B} (m : Script A) (k : A -> Script B) : Script B :=
  fun t =>
    match m t with
    | (Returns a, t') => k a t'
    | (Raises e, t') => (Raises e, t')
    end.

Definition act (a : action) : Script unit :=
  fun t => (Returns tt, t ++ [a]).

Definition lib_call {A} (r : result A) (record : result A -> action)
    : Script A :=
  fun t => (r, t ++ [record r]).

(** [cv2.imread(path)]. *)
Definition load (path : string) : Script (option image) :=
  fun t => (Returns (imread lib path), t ++ [cv2_imread path (imread lib path)]).

(** [x, y, w, h = values]: exactly four values are required. *)
Definition unpack4 (values : list Z) : Script (Z * Z * Z * Z) :=
  match values with
  | [x; y; w; h] => sret (x, y, w, h)
  | _ => fun t =>
      (Raises (Exn OtherException "ValueError: cannot unpack"), t)
  end.

Definition p_modi1 : string := "/content/modi1.jpg".
Definition p_modi2 : string := "/content/modi2.jpg".
Definition p_trump : string := "/content/trump.jpg".
Definition p_fold : string := "/content/fold".

(** The module body, lines 5-16. *)
Definition main : Script unit :=
  sbind (lib_call (verify lib p_modi1 p_modi2)
           (DeepFace_verify p_modi1 p_modi2)) (fun out1 =>
  sbind (lib_call (verify lib p_modi1 p_trump)
           (DeepFace_verify p_modi1 p_trump)) (fun out2 =>
  sbind (act (Print [PVerify out1; PStr "OUT 1"])) (fun _ =>
  sbind (unpack4 (facial_areas_img1 out1)) (fun '(x, y, w, h) =>
  sbind (act (Print [PInt x; PInt y; PInt w; PInt h])) (fun _ =>
  sbind (load p_modi1) (fun loaded =>
  match loaded with
  | None => fun t =>
      (Raises (Exn OtherException "cv2.error: img is not an image"), t)
  | Some ig0 =>
      sbind (act (cv2_rectangle ig0 (x, y) (x + w, y + h) (0, 0, 255) 3))
        (fun _ =>
      let ig := rectangle lib ig0 (x, y) (x + w, y + h) (0, 0, 255) 3 in
      sbind (act (cv2_imshow ig)) (fun _ =>
      sbind (lib_call (find lib p_modi1 p_fold)
               (DeepFace_find p_modi1 p_fold)) (fun out3 =>
      match out3 with
      | frame :: _ => act (Print [PFrame frame])
      | [] => fun t =>
          (Raises (Exn OtherException "IndexError: list index out of range"),
           t)
      end)))
  end)))))).

End Script.

Arguments DeepFace_verify {image}.
Arguments DeepFace_find {image}.
Arguments Print {image}.
Arguments cv2_imread {image}.
Arguments cv2_rectangle {image}.
Arguments cv2_imshow {image}.
Arguments verify {image}.
Arguments find {image}.
Arguments imread {image}.
Arguments rectangle {image}.
Arguments main {image}.

End FaceDetection.

(** ** Concrete environments and inputs used in the examples *)

Module Scenario.

Definition etag_of (part_number : Z) : string :=
  if part_number =? 1 then "etag-1"
  else if part_number =? 2 then "etag-2" else "etag-n".

(** Every call succeeds. *)
Definition all_ok : Services := {|
  uuid4 := fun _ => "1b4e28ba-2fa1-41d2-883f-0016d3cca427";
  s3_create_multipart_upload := fun _ _ _ _ => Returns "upload-1";
  s3_upload_part := fun _ _ _ pn _ _ => Returns (etag_of pn);
  s3_complete_multipart_upload := fun _ _ _ _ _ => Returns tt;
  s3_abort_multipart_upload := fun _ _ _ _ => Returns tt;
  s3_generate_presigned_url :=
    fun _ _ key _ => Returns ("https://s3.example/" +:+ key +:+ "?sig");
  s3_upload_file := fun _ _ _ _ _ _ => Returns tt
|}.

(** The bucket refuses to open a multipart session. *)
Definition create_denied : Services := {|
  uuid4 := uuid4 all_ok;
  s3_create_multipart_upload :=
    fun _ _ _ _ => Raises (Exn ClientError "AccessDenied");
  s3_upload_part := s3_upload_part all_ok;
  s3_complete_multipart_upload := s3_complete_multipart_upload all_ok;
  s3_abort_multipart_upload := s3_abort_multipart_upload all_ok;
  s3_generate_presigned_url := s3_generate_presigned_url all_ok;
  s3_upload_file := s3_upload_file all_ok
|}.

(** The session is opened, then the connection is lost: sending a part
    fails and so does the abort request. *)
Definition connection_lost : Services := {|
  uuid4 := uuid4 all_ok;
  s3_create_multipart_upload := s3_create_multipart_upload all_ok;
  s3_upload_part :=
    fun _ _ _ _ _ _ => Raises (Exn OtherException "EndpointConnectionError");
  s3_complete_multipart_upload := s3_complete_multipart_upload all_ok;
  s3_abort_multipart_upload :=
    fun _ _ _ _ => Raises (Exn OtherException "EndpointConnectionError");
  s3_generate_presigned_url := s3_generate_presigned_url all_ok;
  s3_upload_file := s3_upload_file all_ok
|}.

(** Sending a part fails, the abort request goes through. *)
Definition part_rejected : Services := {|
  uuid4 := uuid4 all_ok;
  s3_create_multipart_upload := s3_create_multipart_upload all_ok;
  s3_upload_part :=
    fun _ _ _ _ _ _ => Raises (Exn ClientError "RequestTimeout");
  s3_complete_multipart_upload := s3_complete_multipart_upload all_ok;
  s3_abort_multipart_upload := s3_abort_multipart_upload all_ok;
  s3_generate_presigned_url := s3_generate_presigned_url all_ok;
  s3_upload_file := s3_upload_file all_ok
|}.

Definition w0 : world := {| fs := ∅; trace := [] |}.

Definition cat_jpg : UploadedFile :=
  File "cat.JPG" [x01; x02; x03]%byte.
Definition dog_png : UploadedFile :=
  File "dog.png" [x04; x05]%byte.
Definition empty_png : UploadedFile := File "empty.png" [].

(** A world in which the temporary copy of [file] is on disk. *)
Definition on_disk (file : UploadedFile) : world :=
  {| fs := {[ name file := data file ]}; trace := [] |}.

(** A face library on images that record the rectangles drawn on them. *)
Definition face_lib : FaceDetection.Library (list (Z * Z * Z * Z)) := {|
  FaceDetection.verify := fun _ _ =>
    Returns (FaceDetection.VerifyOut [10; 20; 30; 40] "{'verified': True}");
  FaceDetection.find := fun _ _ => Returns ["identity  distance"];
  FaceDetection.imread := fun _ => Some [];
  FaceDetection.rectangle := fun img pt1 pt2 _ _ =>
    img ++ [(pt1.1, pt1.2, pt2.1, pt2.2)]
|}.

Definition bucket : string := "poc-drive-for-photographers".
Definition folder : string :=
  "uploads/1b4e28ba-2fa1-41d2-883f-0016d3cca427".

End Scenario.

(** The events a computation adds to the trace. *)
Definition events_of {A} (m : M A) (w : world) : list event :=
  drop (length (trace w)) (trace (m w).2).

(** ** What a run of [multipart_upload] can look like

    The possible runs, as the events they add and the value they give:
    the session is refused; the local file cannot be opened; a part is
    refused; the completion is refused; the upload completes. *)

Definition error_line (object_name : string) (e : exn) : event :=
  EvPrint ("Error uploading " +:+ object_name +:+ ": " +:+ exn_str e).

(** The value of [multipart_upload] after the handler has asked for the
    abort: [None], unless the abort request itself raised. *)
Definition handler_result (oa : result unit) : result (option string) :=
  match oa with Returns _ => Returns None | Raises e => Raises e end.

Definition part_events (b key uid : string) (items : list (Z * list byte))
    (outs : list (result string)) : list event :=
  zip_with (fun it out => EvUploadPart b key it.1 uid it.2 out) items outs.

Definition descriptors (etags : list string) (items : list (Z * list byte))
    : list part :=
  zip_with Part etags (items.*1).

Definition numbered_chunks (content : list byte) : list (Z * list byte) :=
  enumerate (iter_read chunk_size content) 1.

Inductive mp_outcome (file_path b key object_name : string)
    (content : option (list byte))
    : result (option string) -> list event -> Prop :=
| mp_no_session e :
    mp_outcome file_path b key object_name content (Returns None)
      [EvCreateMultipartUpload b key (content_type object_name) (Raises e);
       error_line object_name e]
| mp_no_file uid oa :
    content = None ->
    mp_outcome file_path b key object_name content (handler_result oa)
      [EvCreateMultipartUpload b key (content_type object_name) (Returns uid);
       error_line object_name (FileNotFoundError file_path);
       EvAbortMultipartUpload b key uid oa]
| mp_part_failed uid bytes etags e oa :
    content = Some bytes ->
    (length etags < length (numbered_chunks bytes))%nat ->
    mp_outcome file_path b key object_name content (handler_result oa)
      (EvCreateMultipartUpload b key (content_type object_name) (Returns uid)
       :: part_events b key uid (numbered_chunks bytes)
            ((Returns <$> etags) ++ [Raises e])
       ++ [error_line object_name e; EvAbortMultipartUpload b key uid oa])
| mp_complete_failed uid bytes etags e oa :
    content = Some bytes ->
    length etags = length (numbered_chunks bytes) ->
    mp_outcome file_path b key object_name content (handler_result oa)
      (EvCreateMultipartUpload b key (content_type object_name) (Returns uid)
       :: part_events b key uid (numbered_chunks bytes) (Returns <$> etags)
       ++ [EvCompleteMultipartUpload b key
             (descriptors etags (numbered_chunks bytes)) uid (Raises e);
           error_line object_name e; EvAbortMultipartUpload b key uid oa])
| mp_completed uid bytes etags :
    content = Some bytes ->
    length etags = length (numbered_chunks bytes) ->
    mp_outcome file_path b key object_name content (Returns (Some key))
      (EvCreateMultipartUpload b key (content_type object_name) (Returns uid)
       :: part_events b key uid (numbered_chunks bytes) (Returns <$> etags)
       ++ [EvCompleteMultipartUpload b key
             (descriptors etags (numbered_chunks bytes)) uid (Returns tt)]).

(** ** What the other steps of [upload_multiple_images_to_s3] look like *)

Definition url_error_line (e : exn) : event :=
  EvPrint ("Error generating pre-signed URL: " +:+ exn_str e).

(** One call of [generate_presigned_url]: the request and, when a
    [ClientError] is caught, the console line. *)
Definition presign_events (b key : string) (out : result string)
    : list event :=
  EvGeneratePresignedUrl b key 3600 out
  :: match out with
     | Returns _ => []
     | Raises e =>
         match exn_class_of e with
         | ClientError => [url_error_line e]
         | OtherException => []
         end
     end.

Definition presign_result (out : result string) : result (option string) :=
  match out with
  | Returns url => Returns (Some url)
  | Raises e =>
      match exn_class_of e with
      | ClientError => Returns None
      | OtherException => Raises e
      end
  end.

(** What [if presigned_url: image_links.append(presigned_url)] adds. *)
Definition kept (presigned_url : option string) : list string :=
  match presigned_url with
  | Some url => if Py.truthy url then [url] else []
  | None => []
  end.

Definition object_key (folder : string) (file : UploadedFile) : string :=
  folder +:+ "/" +:+ name file.

Definition gallery_key (folder : string) : string :=
  folder +:+ "/gallery.html".

(** One iteration of the loop that runs to its end: the temporary copy is
    written, the multipart upload is run, a URL is requested when the upload
    gave an object path, the temporary copy is removed.  [added] is what the
    iteration appends to [image_links]. *)
Inductive file_steps (b folder : string) (file : UploadedFile)
    : list string -> list event -> Prop :=
| file_upload_failed mp :
    mp_outcome (name file) b (object_key folder file) (name file)
      (Some (data file)) (Returns None) mp ->
    file_steps b folder file []
      (EvWrite (name file) (data file) :: mp ++ [EvRemove (name file)])
| file_uploaded mp out presigned_url :
    mp_outcome (name file) b (object_key folder file) (name file)
      (Some (data file)) (Returns (Some (object_key folder file))) mp ->
    presign_result out = Returns presigned_url ->
    file_steps b folder file (kept presigned_url)
      (EvWrite (name file) (data file)
       :: mp ++ presign_events b (object_key folder file) out
       ++ [EvRemove (name file)]).

Inductive loop_steps (b folder : string)
    : list UploadedFile -> list string -> list event -> Prop :=
| loop_done : loop_steps b folder [] [] []
| loop_next file files added evs added' evs' :
    file_steps b folder file added evs ->
    loop_steps b folder files added' evs' ->
    loop_steps b folder (file :: files) (added ++ added') (evs ++ evs').

(** One iteration that is left by an exception [e]: the abort request of
    the handler raised, or the URL request raised something that is not a
    [ClientError].  The temporary copy has been written and is not
    removed. *)
Inductive file_interrupted (b folder : string) (file : UploadedFile)
    (e : exn) : list event -> Prop :=
| interrupted_in_upload mp :
    mp_outcome (name file) b (object_key folder file) (name file)
      (Some (data file)) (Raises e) mp ->
    file_interrupted b folder file e (EvWrite (name file) (data file) :: mp)
| interrupted_in_url mp out :
    mp_outcome (name file) b (object_key folder file) (name file)
      (Some (data file)) (Returns (Some (object_key folder file))) mp ->
    presign_result out = Raises e ->
    file_interrupted b folder file e
      (EvWrite (name file) (data file)
       :: mp ++ presign_events b (object_key folder file) out).

(** The steps of [create_preview_html] when it returns. *)
Definition gallery_steps (b folder : string) (image_links : list string)
    : list event :=
  let page := String.list_byte_of_string (html_content image_links) in
  [EvWrite "gallery.html" page;
   EvUploadFile "gallery.html" b (gallery_key folder) "text/html" page
     (Returns tt);
   EvRemove "gallery.html"].

(** The runs of [upload_multiple_images_to_s3] after the session id has
    been drawn: the loop is left by an exception; the bucket refuses the
    page; the page is stored and its URL is requested. *)
Inductive session_run (b folder : string) (files : list UploadedFile)
    : result (option string) -> list event -> Prop :=
| session_interrupted processed file rest added evs e evs' :
    files = processed ++ file :: rest ->
    loop_steps b folder processed added evs ->
    file_interrupted b folder file e evs' ->
    session_run b folder files (Raises e) (evs ++ evs')
| session_page_refused image_links evs e :
    loop_steps b folder files image_links evs ->
    session_run b folder files (Raises e)
      (evs
       ++ [EvWrite "gallery.html"
             (String.list_byte_of_string (html_content image_links));
           EvUploadFile "gallery.html" b (gallery_key folder) "text/html"
             (String.list_byte_of_string (html_content image_links))
             (Raises e)])
| session_page_stored image_links evs out :
    loop_steps b folder files image_links evs ->
    session_run b folder files (presign_result out)
      (evs ++ gallery_steps b folder image_links
       ++ presign_events b (gallery_key folder) out).

(** ** Keys *)




(** Whether the call recorded by an event returned. *)
Definition succeeded (ev : event) : bool :=
  match ev with
  | EvCreateMultipartUpload _ _ _ out => returned out
  | EvUploadPart _ _ _ _ _ out => returned out
  | EvCompleteMultipartUpload _ _ _ _ out => returned out
  | EvAbortMultipartUpload _ _ _ out => returned out
  | EvGeneratePresignedUrl _ _ _ out => returned out
  | EvUploadFile _ _ _ _ _ out => returned out
  | EvUuid4 _ | EvWrite _ _ | EvRemove _ | EvPrint _ => true
  end.

(** The pre-signed URL an event produced, with the key it is for. *)
Definition presigned (ev : event) : option (string * string) :=
  match ev with
  | EvGeneratePresignedUrl _ key _ (Returns url) => Some (key, url)
  | _ => None
  end.

(** An [upload_part] call. *)
Definition is_upload_part (ev : event) : Prop :=
  match ev with EvUploadPart _ _ _ _ _ _ => True | _ => False end.

(** [ceil(a / b)] for a positive [b]. *)
Definition ceil_div (a b : Z) : Z := (a + b - 1) / b.

(** ** Observations on a trace *)

(** The bytes and the number a call of [upload_part] carries. *)
Definition sent_body (ev : event) : option (list byte) :=
  match ev with EvUploadPart _ _ _ _ Body _ => Some Body | _ => None end.

Definition sent_number (ev : event) : option Z :=
  match ev with EvUploadPart _ _ n _ _ _ => Some n | _ => None end.


(** [needle in haystack] for strings. *)
Definition occurs_in (needle haystack : string) : Prop :=
  exists before after, haystack = before +:+ needle +:+ after.

(** The code points [str.isspace()] accepts. *)
Definition space_code_points : list N :=
  [9; 10; 11; 12; 13; 28; 29; 30; 31; 32; 133; 160; 5760;
   8192; 8193; 8194; 8195; 8196; 8197; 8198; 8199; 8200; 8201; 8202;
   8232; 8233; 8239; 8287; 12288]%N.

(** The UTF-8 bytes of a code point below U+10000. *)
Definition utf8 (cp : N) : string :=
  (if cp <? 128 then String (ascii_of_N cp) EmptyString
   else if cp <? 2048 then
     String (ascii_of_N (192 + cp / 64))
       (String (ascii_of_N (128 + cp mod 64)) EmptyString)
   else
     String (ascii_of_N (224 + cp / 4096))
       (String (ascii_of_N (128 + (cp / 64) mod 64))
          (String (ascii_of_N (128 + cp mod 64)) EmptyString)))%N.

(** A text made of white-space characters only (or empty). *)
Definition blank (s : string) : Prop :=
  exists cps,
    Forall (fun cp => cp ∈ space_code_points) cps /\
    s = foldr (fun cp rest => utf8 cp +:+ rest) EmptyString cps.

(** ** More environments for the examples *)

Module Scenario2.

(** Uploads go through, every URL request is refused. *)
Definition url_denied : Services := {|
  uuid4 := uuid4 Scenario.all_ok;
  s3_create_multipart_upload := s3_create_multipart_upload Scenario.all_ok;
  s3_upload_part := s3_upload_part Scenario.all_ok;
  s3_complete_multipart_upload := s3_complete_multipart_upload Scenario.all_ok;
  s3_abort_multipart_upload := s3_abort_multipart_upload Scenario.all_ok;
  s3_generate_presigned_url :=
    fun _ _ _ _ => Raises (Exn ClientError "AccessDenied");
  s3_upload_file := s3_upload_file Scenario.all_ok
|}.

(** Everything goes through but the upload of the gallery page. *)
Definition page_refused : Services := {|
  uuid4 := uuid4 Scenario.all_ok;
  s3_create_multipart_upload := s3_create_multipart_upload Scenario.all_ok;
  s3_upload_part := s3_upload_part Scenario.all_ok;
  s3_complete_multipart_upload := s3_complete_multipart_upload Scenario.all_ok;
  s3_abort_multipart_upload := s3_abort_multipart_upload Scenario.all_ok;
  s3_generate_presigned_url := s3_generate_presigned_url Scenario.all_ok;
  s3_upload_file :=
    fun _ _ _ _ _ _ => Raises (Exn OtherException "S3UploadFailedError")
|}.

(** A face library whose facial areas carry six values (x, y, w, h and the
    two eyes). *)
Definition six_values : FaceDetection.Library (list (Z * Z * Z * Z)) := {|
  FaceDetection.verify := fun _ _ =>
    Returns (FaceDetection.VerifyOut [10; 20; 30; 40; 15; 35]
               "{'verified': True}");
  FaceDetection.find := FaceDetection.find Scenario.face_lib;
  FaceDetection.imread := FaceDetection.imread Scenario.face_lib;
  FaceDetection.rectangle := FaceDetection.rectangle Scenario.face_lib
|}.

End Scenario2.

(** An action that shows an image. *)
Definition is_imshow {image : Type} (a : FaceDetection.action image) : Prop :=
  match a with FaceDetection.cv2_imshow _ => True | _ => False end.

(** * Properties *)

(** ** Strings *)

Lemma append_nil t : EmptyString +:+ t = t.
Proof. reflexivity. Qed.

Lemma append_cons c s t : String c s +:+ t = String c (s +:+ t).
Proof. reflexivity. Qed.

Lemma length_append s t :
  String.length (s +:+ t) = (String.length s + String.length t)%nat.
Proof.
  induction s as [|c s IH]; [done |].
  rewrite append_cons. simpl. by rewrite IH.
Qed.

Lemma slice_from_append s t : Py.slice_from (String.length s) (s +:+ t) = t.
Proof.
  induction s as [|c s IH]; [rewrite append_nil; by destruct t |].
  rewrite append_cons. simpl. done.
Qed.

Lemma slice_from_split n s :
  exists stem, s = stem +:+ Py.slice_from n s /\
               String.length stem = Nat.min n (String.length s).
Proof.
  revert s. induction n as [|n IH]; intros s; simpl.
  - exists EmptyString. split; [done | by destruct s].
  - destruct s as [|c s]; simpl.
    + by exists EmptyString.
    + destruct (IH s) as (stem & Hs & Hl).
      exists (String c stem). rewrite append_cons. simpl.
      split; [by rewrite <- Hs | by rewrite Hl].
Qed.
Lemma endswith_iff s suffix :
  Py.endswith s suffix = true <-> exists stem, s = stem +:+ suffix.
Proof.
  unfold Py.endswith. rewrite andb_true_iff, Nat.leb_le, String.eqb_eq. split.
  - intros [_ Heq].
    destruct (slice_from_split (String.length s - String.length suffix) s)
      as (stem & Hs & _).
    exists stem. by rewrite <- Heq.
  - intros [stem ->]. rewrite length_append. split; [lia |].
    replace (String.length stem + String.length suffix - String.length suffix)%nat
      with (String.length stem) by lia.
    apply slice_from_append.
Qed.

Lemma lower_append s t : Py.lower (s +:+ t) = Py.lower s +:+ Py.lower t.
Proof.
  induction s as [|c s IH]; [done |].
  rewrite append_cons. simpl. by rewrite IH.
Qed.

Lemma lower_length s : String.length (Py.lower s) = String.length s.
Proof. induction s as [|c s IH]; simpl; [done | by rewrite IH]. Qed.

Lemma append_inv_length s1 t1 s2 t2 :
  s1 +:+ t1 = s2 +:+ t2 -> String.length s1 = String.length s2 ->
  s1 = s2 /\ t1 = t2.
Proof.
  revert s2. induction s1 as [|c s1 IH]; intros [|d s2]; simpl; try done.
  rewrite !append_cons. intros Heq Hlen. injection Heq as -> Heq.
  destruct (IH s2 Heq) as [-> ->]; [lia | done].
Qed.

(** [name.lower().endswith(ext)] says that a tail of [name] is [ext] up to
    the case of its letters. *)
Lemma endswith_lower_iff name ext :
  Py.endswith (Py.lower name) ext = true <-> ends_with_ci name ext.
Proof.
  rewrite endswith_iff. unfold ends_with_ci. split.
  - intros [stem' Hl].
    destruct (slice_from_split (String.length stem') name) as (stem & Hs & Hlen).
    exists stem, (Py.slice_from (String.length stem') name). split; [done |].
    assert (Hle : (String.length stem' <= String.length name)%nat).
    { rewrite <- (lower_length name), Hl, length_append. lia. }
    rewrite Hs, lower_append in Hl.
    apply append_inv_length in Hl as [_ Hl]; [done |].
    rewrite lower_length, Hlen. lia.
  - intros (stem & tail & -> & <-). exists (Py.lower stem). apply lower_append.
Qed.

(** ** Runs of the primitive operations *)

Lemma events_of_app {A} (m : M A) w evs :
  trace (m w).2 = trace w ++ evs -> events_of m w = evs.
Proof. unfold events_of. intros ->. apply drop_app_length. Qed.

Lemma call_run {A} (answer : list event -> result A) record w :
  call answer record w =
    (answer (trace w),
     {| fs := fs w; trace := trace w ++ [record (answer (trace w))] |}).
Proof. reflexivity. Qed.

Lemma bind_run {A B} (m : M A) (k : A -> M B) w :
  bind m k w =
    match m w with
    | (Returns a, w') => k a w'
    | (Raises e, w') => (Raises e, w')
    end.
Proof. reflexivity. Qed.

(** ** The chunks of a file *)

Lemma iter_read_step size rest :
  iter_read size rest =
    match (file_read size rest).1 with
    | [] => []
    | c => c :: iter_read size (file_read size rest).2
    end.
Proof.
  funelim (iter_read size rest).
  - by rewrite e.
  - by rewrite Hread.
Qed.

Lemma iter_read_nil size : iter_read size [] = [].
Proof.
  rewrite iter_read_step. unfold file_read.
  destruct (size <? 0); simpl; [done | by rewrite take_nil].
Qed.

Lemma iter_read_cons size b rest :
  0 < size ->
  iter_read size (b :: rest) =
    take (Z.to_nat size) (b :: rest)
    :: iter_read size (drop (Z.to_nat size) (b :: rest)).
Proof.
  intros Hpos. rewrite iter_read_step. unfold file_read.
  destruct (Z.ltb_spec size 0) as [? | _]; [lia |]. simpl fst. simpl snd.
  destruct (Z.to_nat size) as [|n] eqn:Hn; [lia | done].
Qed.

(** Induction on the rest of the file, one chunk at a time. *)
Lemma chunk_induction (size : nat) (P : list byte -> Prop) :
  (0 < size)%nat ->
  P [] ->
  (forall b rest, P (drop size (b :: rest)) -> P (b :: rest)) ->
  forall rest, P rest.
Proof.
  intros Hpos Hnil Hstep rest.
  induction rest as [rest IH] using (induction_ltof1 _ (@length byte)).
  destruct rest as [|b rest]; [done |].
  apply Hstep, IH. unfold ltof. rewrite length_drop. simpl. lia.
Qed.

Lemma iter_read_concat size rest :
  0 < size -> concat (iter_read size rest) = rest.
Proof.
  intros Hpos. revert rest.
  apply (chunk_induction (Z.to_nat size));
    [lia | by rewrite iter_read_nil | intros b rest IH].
  rewrite iter_read_cons by done. simpl concat. rewrite IH.
  apply (take_drop (Z.to_nat size) (b :: rest)).
Qed.

Lemma iter_read_length size rest :
  0 < size ->
  Z.of_nat (length (iter_read size rest))
  = ceil_div (Z.of_nat (length rest)) size.
Proof.
  intros Hpos. unfold ceil_div. revert rest.
  apply (chunk_induction (Z.to_nat size)); [lia | | intros b rest IH].
  - rewrite iter_read_nil. simpl. symmetry. apply Z.div_small. lia.
  - rewrite iter_read_cons by done.
    rewrite length_cons, Nat2Z.inj_succ, IH, length_drop.
    set (len := length (b :: rest)).
    assert (Hlen : (0 < len)%nat) by (unfold len; simpl; lia).
    destruct (decide (len <= Z.to_nat size)%nat) as [Hle | Hgt].
    + replace (len - Z.to_nat size)%nat with 0%nat by lia.
      rewrite (Z.div_small (Z.of_nat 0 + size - 1)) by lia.
      apply (Z.div_unique _ _ 1 (Z.of_nat len - 1)); lia.
    + rewrite Nat2Z.inj_sub by lia. rewrite Z2Nat.id by lia.
      replace (Z.of_nat len + size - 1)
        with ((Z.of_nat len - size + size - 1) + 1 * size) by lia.
      rewrite Z.div_add by lia. lia.
Qed.

(** Chunk [i] is the slice [i * size, (i + 1) * size) of the file. *)
Lemma iter_read_lookup size rest i c :
  0 < size ->
  iter_read size rest !! i = Some c ->
  c = take (Z.to_nat size) (drop (i * Z.to_nat size) rest) /\
  (i * Z.to_nat size < length rest)%nat.
Proof.
  intros Hpos. revert rest i c.
  refine (chunk_induction (Z.to_nat size) _ _ _ _);
    [lia | intros i c | intros b rest IH i c].
  - by rewrite iter_read_nil.
  - rewrite iter_read_cons by done. destruct i as [|i].
    + simpl. intros [= <-]. split; [done | lia].
    + rewrite lookup_cons_Some. intros [[? _] | [_ Hi]]; [lia |].
      replace (S i - 1)%nat with i in Hi by lia.
      apply IH in Hi as [-> Hlt]. rewrite drop_drop, length_drop in *.
      replace (Z.to_nat size + i * Z.to_nat size)%nat
        with (S i * Z.to_nat size)%nat by lia.
      split; [done | lia].
Qed.

(** Every chunk but the last has exactly [size] bytes; the last has the
    bytes that are left. *)
Lemma iter_read_chunk_length size rest i c :
  0 < size ->
  iter_read size rest !! i = Some c ->
  Z.of_nat (length c) =
    if decide (S i < length (iter_read size rest))%nat then size
    else Z.of_nat (length rest)
         - (Z.of_nat (length (iter_read size rest)) - 1) * size.
Proof.
  intros Hpos Hi.
  pose proof (lookup_lt_Some _ _ _ Hi) as Hlt.
  destruct (iter_read_lookup _ _ _ _ Hpos Hi) as [-> Hi_lt].
  rewrite length_take, length_drop.
  case_decide as Hlast.
  - destruct (lookup_lt_is_Some_2 (iter_read size rest) (S i) Hlast) as [c' Hc'].
    apply iter_read_lookup in Hc' as [_ Hnext]; [| done].
    simpl in Hnext. lia.
  - assert (Hn : length (iter_read size rest) = S i) by lia.
    pose proof (iter_read_length size rest Hpos) as Hceil.
    rewrite Hn in *. unfold ceil_div in Hceil.
    assert (Hub : Z.of_nat (length rest) <= Z.of_nat (S i) * size).
    { rewrite Hceil.
      pose proof (Z.mul_div_le (Z.of_nat (length rest) + size - 1) size Hpos).
      pose proof (Z.mod_pos_bound (Z.of_nat (length rest) + size - 1) size Hpos).
      pose proof (Z.div_mod (Z.of_nat (length rest) + size - 1) size).
      nia. }
    nia.
Qed.

Lemma enumerate_length {A} (items : list A) start :
  length (enumerate items start) = length items.
Proof.
  revert start. induction items as [|x items IH]; intros start; simpl;
    [done | by rewrite IH].
Qed.

Lemma part_events_enumerate b key uid chunks etags start :
  part_events b key uid (enumerate chunks start) (Returns <$> etags) =
    imap (fun i ce => EvUploadPart b key (start + Z.of_nat i) uid ce.1
                        (Returns ce.2))
         (zip chunks etags).
Proof.
  revert etags start. induction chunks as [|c chunks IH]; intros etags start;
    [done |].
  destruct etags as [|etag etags]; [done |].
  change (part_events b key uid (enumerate (c :: chunks) start)
            (Returns <$> etag :: etags))
    with (EvUploadPart b key start uid c (Returns etag)
          :: part_events b key uid (enumerate chunks (start + 1))
               (Returns <$> etags)).
  rewrite IH. simpl. rewrite Z.add_0_r. f_equal.
  apply imap_ext. intros i [c' e'] _. simpl. f_equal. lia.
Qed.

Lemma descriptors_enumerate {A} (chunks : list A) etags start :
  length etags = length chunks ->
  zip_with Part etags ((enumerate chunks start).*1) =
    imap (fun i etag => Part etag (start + Z.of_nat i)) etags.
Proof.
  revert etags start. induction chunks as [|c chunks IH]; intros etags start.
  - by destruct etags.
  - destruct etags as [|etag etags]; [done |].
    simpl. intros [= Hlen]. rewrite Z.add_0_r. f_equal.
    rewrite IH by done.
    apply imap_ext. intros i e' _. simpl. f_equal. lia.
Qed.

Lemma chunk_size_pos : 0 < chunk_size.
Proof. reflexivity. Qed.

Lemma chunk_size_value : chunk_size = 5242880.
Proof. reflexivity. Qed.

(** From here on the chunks are handled through the lemmas above. *)
#[global] Opaque iter_read chunk_size.

(** ** [multipart_upload] *)

Section MultipartUpload.

Variable env : Services.

(** The loop over the parts: it stops at the first refused part; the
    parts sent carry the numbers and chunks of [items], in order. *)
Lemma upload_parts_run b key uid items parts w r w' :
  upload_parts env b key uid items parts w = (r, w') ->
  fs w' = fs w /\
  exists outs, trace w' = trace w ++ part_events b key uid items outs /\
    match r with
    | Returns ps =>
        exists etags, outs = Returns <$> etags /\
          length etags = length items /\
          ps = parts ++ descriptors etags items
    | Raises e =>
        exists etags, outs = (Returns <$> etags) ++ [Raises e] /\
          (length etags < length items)%nat
    end.
Proof.
  revert parts w. induction items as [|[pn chunk] items IH]; intros parts w.
  - simpl. intros [= <- <-]. split; [done |]. exists []. split.
    + by rewrite app_nil_r.
    + exists []. by rewrite app_nil_r.
  - simpl. rewrite bind_run. unfold upload_part at 1. rewrite call_run.
    destruct (s3_upload_part env (trace w) b key pn uid chunk)
      as [etag | e] eqn:Hout.
    + intros Hrest. apply IH in Hrest as (Hfs & outs & Htr & Hr).
      split; [done |]. exists (Returns etag :: outs). split.
      * rewrite Htr. simpl. by rewrite <- app_assoc.
      * destruct r as [ps | e'].
        -- destruct Hr as (etags & -> & Hlen & ->).
           exists (etag :: etags). simpl.
           split_and!; [done | by rewrite Hlen | by rewrite <- app_assoc].
        -- destruct Hr as (etags & -> & Hlen).
           exists (etag :: etags). simpl. split; [done | lia].
    + intros [= <- <-]. split; [done |]. exists [Raises e]. split.
      * by destruct items.
      * exists []. simpl. split; [done | lia].
Qed.

(** Every run of [multipart_upload] is one of the five runs of
    [mp_outcome], and leaves the local files as they were. *)
Lemma multipart_upload_run file_path b folder object_name w r w' :
  multipart_upload env file_path b folder object_name w = (r, w') ->
  fs w' = fs w /\
  exists evs, trace w' = trace w ++ evs /\
    mp_outcome file_path b (folder +:+ "/" +:+ object_name) object_name
      (fs w !! file_path) r evs.
Proof.
  unfold multipart_upload, multipart_upload_try.
  unfold create_multipart_upload. rewrite call_run.
  set (key := folder +:+ "/" +:+ object_name).
  destruct (s3_create_multipart_upload env (trace w) b key
              (content_type object_name)) as [uid | e] eqn:Hcreate.
  2:{ intros [= <- <-]. split; [done |]. eexists. split.
      - simpl. rewrite <- app_assoc. reflexivity.
      - apply mp_no_session. }
  unfold multipart_upload_parts. rewrite bind_run. unfold open_rb at 1.
  simpl fs. simpl trace.
  destruct (fs w !! file_path) as [bytes |] eqn:Hfile.
  2:{ unfold multipart_upload_except, print, abort_multipart_upload.
      rewrite !bind_run, call_run. simpl.
      destruct (s3_abort_multipart_upload _ _ _ _ _) as [[] | e'] eqn:Hab;
        intros [= <- <-]; (split; [done |]); eexists;
        (split; [rewrite <- !app_assoc; reflexivity |]).
      - by apply (mp_no_file _ _ _ _ _ uid (Returns tt)).
      - by apply (mp_no_file _ _ _ _ _ uid (Raises e')). }
  rewrite bind_run.
  destruct (upload_parts env b key uid _ [] _) as [rp wp] eqn:Hparts.
  apply upload_parts_run in Hparts as (Hfs & outs & Htr & Hr).
  simpl in Hfs, Htr. fold (numbered_chunks bytes) in *.
  destruct rp as [ps | e].
  - destruct Hr as (etags & -> & Hlen & ->). simpl.
    rewrite bind_run. unfold complete_multipart_upload. rewrite call_run.
    destruct (s3_complete_multipart_upload _ _ _ _ _ _) as [[] | e] eqn:Hc.
    + simpl. intros [= <- <-]. split; [done |]. eexists. split.
      * simpl. rewrite Htr, <- !app_assoc. simpl. reflexivity.
      * by apply mp_completed.
    + unfold multipart_upload_except, print, abort_multipart_upload.
      rewrite !bind_run, call_run. simpl.
      destruct (s3_abort_multipart_upload _ _ _ _ _) as [[] | e'] eqn:Hab;
        intros [= <- <-]; (split; [done |]); eexists;
        (split; [rewrite Htr, <- !app_assoc; simpl; reflexivity |]).
      * by apply (mp_complete_failed _ _ _ _ _ uid bytes etags e (Returns tt)).
      * by apply (mp_complete_failed _ _ _ _ _ uid bytes etags e (Raises e')).
  - destruct Hr as (etags & -> & Hlen).
    unfold multipart_upload_except, print, abort_multipart_upload.
    rewrite !bind_run, call_run. simpl.
    destruct (s3_abort_multipart_upload _ _ _ _ _) as [[] | e'] eqn:Hab;
      intros [= <- <-]; (split; [done |]); eexists;
      (split; [rewrite Htr, <- !app_assoc; simpl; reflexivity |]).
    + by apply (mp_part_failed _ _ _ _ _ uid bytes etags e (Returns tt)).
    + by apply (mp_part_failed _ _ _ _ _ uid bytes etags e (Raises e')).
Qed.

End MultipartUpload.

(** ** Content type, chunks and part descriptors *)

Lemma part_events_is_upload_part b key uid items outs :
  Forall is_upload_part (part_events b key uid items outs).
Proof.
  unfold part_events. revert outs.
  induction items as [|it items IH]; intros [|out outs]; simpl;
    constructor; [done | apply IH].
Qed.

Lemma multipart_upload_events env file_path b folder object_name w :
  exists r evs,
    (multipart_upload env file_path b folder object_name w).1 = r /\
    events_of (multipart_upload env file_path b folder object_name) w = evs /\
    mp_outcome file_path b (folder +:+ "/" +:+ object_name) object_name
      (fs w !! file_path) r evs.
Proof.
  destruct (multipart_upload env file_path b folder object_name w)
    as [r w'] eqn:Hrun.
  pose proof Hrun as Hrun'.
  apply multipart_upload_run in Hrun' as (_ & evs & Htr & Hout).
  exists r, evs. split; [done |]. split; [| done].
  apply events_of_app. by rewrite Hrun.
Qed.

(** C8: [multipart_upload] opens the upload with ContentType "image/jpeg"
    when the object name ends, whatever the case of its letters, with
    ".jpg" or ".jpeg", and with "image/png" for every other name; the bytes
    of the file play no part. *)
Theorem multipart_upload_content_type env file_path b folder object_name w :
  exists ContentType out rest,
    events_of (multipart_upload env file_path b folder object_name) w =
      EvCreateMultipartUpload b (folder +:+ "/" +:+ object_name)
        ContentType out :: rest /\
    (ends_with_ci object_name ".jpg" \/ ends_with_ci object_name ".jpeg" ->
     ContentType = "image/jpeg") /\
    (~ (ends_with_ci object_name ".jpg" \/ ends_with_ci object_name ".jpeg") ->
     ContentType = "image/png").
Proof.
  destruct (multipart_upload_events env file_path b folder object_name w)
    as (r & evs & _ & -> & Hout).
  exists (content_type object_name).
  assert (Hct :
    (ends_with_ci object_name ".jpg" \/ ends_with_ci object_name ".jpeg" ->
     content_type object_name = "image/jpeg") /\
    (~ (ends_with_ci object_name ".jpg" \/ ends_with_ci object_name ".jpeg") ->
     content_type object_name = "image/png")).
  { unfold content_type. rewrite <- !endswith_lower_iff.
    destruct (Py.endswith (Py.lower object_name) ".jpg");
      destruct (Py.endswith (Py.lower object_name) ".jpeg"); simpl;
      split; intros H; try done; try (by destruct H); exfalso; apply H; auto. }
  inversion Hout; subst; eauto.
Qed.

(** C9: for a zero-byte file, once the multipart session is open,
    [multipart_upload] sends no part and asks for the completion with an
    empty list of parts. *)
Theorem multipart_upload_empty_file env file_path b folder object_name w
    b' key' ct' uid :
  fs w !! file_path = Some [] ->
  EvCreateMultipartUpload b' key' ct' (Returns uid)
    ∈ events_of (multipart_upload env file_path b folder object_name) w ->
  Forall (fun ev => ~ is_upload_part ev)
    (events_of (multipart_upload env file_path b folder object_name) w) /\
  exists out tail,
    events_of (multipart_upload env file_path b folder object_name) w =
      EvCreateMultipartUpload b (folder +:+ "/" +:+ object_name)
        (content_type object_name) (Returns uid)
      :: EvCompleteMultipartUpload b (folder +:+ "/" +:+ object_name) [] uid out
      :: tail.
Proof.
  intros Hfile.
  destruct (multipart_upload_events env file_path b folder object_name w)
    as (r & evs & _ & -> & Hout).
  rewrite Hfile in Hout. intros Hin.
  assert (Hchunks : numbered_chunks [] = []).
  { unfold numbered_chunks. by rewrite iter_read_nil. }
  inversion Hout as [e | uid0 oa Hc | uid0 bytes etags e oa Hc Hlen
                    | uid0 bytes etags e oa Hc Hlen | uid0 bytes etags Hc Hlen];
    subst; try discriminate Hc.
  - apply elem_of_cons in Hin as [Hin | Hin]; [discriminate Hin |].
    apply list_elem_of_singleton in Hin. discriminate Hin.
  - injection Hc as <-. rewrite Hchunks in Hlen. simpl in Hlen. lia.
  - injection Hc as <-. rewrite Hchunks in *. clear Hchunks.
    destruct etags; [| discriminate Hlen].
    simpl in *. apply elem_of_cons in Hin as [[= -> -> -> ->] | Hin].
    + split; [repeat constructor; simpl; tauto | eauto].
    + exfalso. repeat (apply elem_of_cons in Hin as [Hin | Hin];
                       [discriminate Hin |]).
      by apply elem_of_nil in Hin.
  - injection Hc as <-. rewrite Hchunks in *. clear Hchunks.
    destruct etags; [| discriminate Hlen].
    simpl in *. apply elem_of_cons in Hin as [[= -> -> -> ->] | Hin].
    + split; [repeat constructor; simpl; tauto | eauto].
    + exfalso. repeat (apply elem_of_cons in Hin as [Hin | Hin];
                       [discriminate Hin |]).
      by apply elem_of_nil in Hin.
Qed.

(** C2: for a file of [s > 0] bytes, whenever [multipart_upload] reaches
    [complete_multipart_upload], the file has been sent in [ceil(s / 5 MiB)]
    parts, each of exactly [5 * 1024 * 1024] bytes except the last, which
    holds what is left; the descriptors passed to the completion carry the
    numbers 1, 2, ..., n in upload order, each with the ETag returned for
    that part. *)
Theorem multipart_upload_parts_numbered env file_path b folder object_name w
    content b' key' Parts uid out :
  fs w !! file_path = Some content ->
  (0 < length content)%nat ->
  EvCompleteMultipartUpload b' key' Parts uid out
    ∈ events_of (multipart_upload env file_path b folder object_name) w ->
  let chunks := iter_read chunk_size content in
  let n := length chunks in
  let key := folder +:+ "/" +:+ object_name in
  chunk_size = 5242880 /\
  Z.of_nat n = ceil_div (Z.of_nat (length content)) chunk_size /\
  concat chunks = content /\
  (forall i chunk, chunks !! i = Some chunk ->
     Z.of_nat (length chunk) =
       if decide (S i < n)%nat then chunk_size
       else Z.of_nat (length content) - (Z.of_nat n - 1) * chunk_size) /\
  exists etags tail,
    length etags = n /\
    Parts = imap (fun i etag => Part etag (1 + Z.of_nat i)) etags /\
    events_of (multipart_upload env file_path b folder object_name) w =
      EvCreateMultipartUpload b key (content_type object_name) (Returns uid)
      :: imap (fun i ce => EvUploadPart b key (1 + Z.of_nat i) uid ce.1
                             (Returns ce.2))
              (zip chunks etags)
      ++ EvCompleteMultipartUpload b key Parts uid out :: tail.
Proof.
  intros Hfile Hlen Hin chunks n key.
  split; [apply chunk_size_value |].
  split; [apply iter_read_length, chunk_size_pos |].
  split; [apply iter_read_concat, chunk_size_pos |].
  split; [intros i chunk; apply iter_read_chunk_length, chunk_size_pos |].
  revert Hin.
  destruct (multipart_upload_events env file_path b folder object_name w)
    as (r & evs & _ & -> & Hout).
  rewrite Hfile in Hout. intros Hin.
  assert (Hparts : forall uid0 outs ev,
            ev ∈ part_events b key uid0 (numbered_chunks content) outs ->
            ev <> EvCompleteMultipartUpload b' key' Parts uid out).
  { intros uid0 outs ev Hev ->.
    pose proof (part_events_is_upload_part b key uid0
                  (numbered_chunks content) outs) as Hall.
    rewrite Forall_forall in Hall. by apply Hall in Hev. }
  assert (Hdone : forall uid0 etags out0 tail0,
    length etags = length (numbered_chunks content) ->
    EvCompleteMultipartUpload b' key' Parts uid out
      ∈ part_events b key uid0 (numbered_chunks content) (Returns <$> etags)
        ++ EvCompleteMultipartUpload b key
             (descriptors etags (numbered_chunks content)) uid0 out0 :: tail0 ->
    (forall ev, ev ∈ tail0 ->
       ev <> EvCompleteMultipartUpload b' key' Parts uid out) ->
    exists etags' tail,
      length etags' = n /\
      Parts = imap (fun i etag => Part etag (1 + Z.of_nat i)) etags' /\
      EvCreateMultipartUpload b key (content_type object_name) (Returns uid0)
      :: part_events b key uid0 (numbered_chunks content) (Returns <$> etags)
      ++ EvCompleteMultipartUpload b key
           (descriptors etags (numbered_chunks content)) uid0 out0 :: tail0
      = EvCreateMultipartUpload b key (content_type object_name) (Returns uid)
        :: imap (fun i ce => EvUploadPart b key (1 + Z.of_nat i) uid ce.1
                               (Returns ce.2))
                (zip chunks etags')
        ++ EvCompleteMultipartUpload b key Parts uid out :: tail).
  { intros uid0 etags out0 tail0 Hn Hmem Htail.
    unfold numbered_chunks in Hn. rewrite enumerate_length in Hn.
    apply elem_of_app in Hmem as [Hmem | Hmem];
      [by apply Hparts in Hmem |].
    apply elem_of_cons in Hmem as [Heq | Hmem];
      [| by apply Htail in Hmem].
    injection Heq as -> -> -> -> ->.
    exists etags, tail0. unfold numbered_chunks, descriptors.
    rewrite part_events_enumerate, descriptors_enumerate by done.
    done. }
  inversion Hout as [e | uid0 oa Hc | uid0 bytes etags e oa Hc Hn
                    | uid0 bytes etags e oa Hc Hn | uid0 bytes etags Hc Hn];
    subst; try discriminate Hc.
  - apply elem_of_cons in Hin as [Hin | Hin]; [discriminate Hin |].
    apply list_elem_of_singleton in Hin. discriminate Hin.
  - injection Hc as <-. exfalso.
    apply elem_of_cons in Hin as [Hin | Hin]; [discriminate Hin |].
    apply elem_of_app in Hin as [Hin | Hin]; [by apply Hparts in Hin |].
    apply elem_of_cons in Hin as [Hin | Hin]; [discriminate Hin |].
    apply list_elem_of_singleton in Hin. discriminate Hin.
  - injection Hc as <-.
    apply elem_of_cons in Hin as [Hin | Hin]; [discriminate Hin |].
    apply (Hdone uid0 etags (Raises e)
             [error_line object_name e;
              EvAbortMultipartUpload b key uid0 oa]); [done | done |].
    intros ev Hev ->.
      apply elem_of_cons in Hev as [Hev | Hev]; [discriminate Hev |].
      apply list_elem_of_singleton in Hev. discriminate Hev.
  - injection Hc as <-.
    apply elem_of_cons in Hin as [Hin | Hin]; [discriminate Hin |].
    apply (Hdone uid0 etags (Returns tt) []); [done | done |].
    intros ev Hev. by apply elem_of_nil in Hev.
Qed.

Lemma multipart_upload_empty_file_witness :
  Forall (fun ev => ~ is_upload_part ev)
    (events_of (multipart_upload Scenario.all_ok "empty.png" Scenario.bucket
                  Scenario.folder "empty.png")
       (Scenario.on_disk Scenario.empty_png)) /\
  exists out tail,
    events_of (multipart_upload Scenario.all_ok "empty.png" Scenario.bucket
                 Scenario.folder "empty.png")
      (Scenario.on_disk Scenario.empty_png) =
      EvCreateMultipartUpload Scenario.bucket
        (Scenario.folder +:+ "/" +:+ "empty.png")
        (content_type "empty.png") (Returns "upload-1")
      :: EvCompleteMultipartUpload Scenario.bucket
           (Scenario.folder +:+ "/" +:+ "empty.png") [] "upload-1" out
      :: tail.
Proof.
  apply (multipart_upload_empty_file Scenario.all_ok "empty.png"
           Scenario.bucket Scenario.folder "empty.png"
           (Scenario.on_disk Scenario.empty_png)
           Scenario.bucket (Scenario.folder +:+ "/empty.png") "image/png").
  - vm_compute. reflexivity.
  - vm_compute. constructor.
Defined.

Lemma multipart_upload_parts_numbered_witness :
  fs (Scenario.on_disk Scenario.cat_jpg) !! "cat.JPG"
    = Some (data Scenario.cat_jpg) /\
  exists etags tail,
    length etags = length (iter_read chunk_size (data Scenario.cat_jpg)) /\
    [Part "etag-1" 1] = imap (fun i etag => Part etag (1 + Z.of_nat i)) etags /\
    events_of (multipart_upload Scenario.all_ok "cat.JPG" Scenario.bucket
                 Scenario.folder "cat.JPG")
      (Scenario.on_disk Scenario.cat_jpg) =
      EvCreateMultipartUpload Scenario.bucket
        (Scenario.folder +:+ "/" +:+ "cat.JPG") (content_type "cat.JPG")
        (Returns "upload-1")
      :: imap (fun i ce => EvUploadPart Scenario.bucket
                             (Scenario.folder +:+ "/" +:+ "cat.JPG")
                             (1 + Z.of_nat i) "upload-1" ce.1 (Returns ce.2))
              (zip (iter_read chunk_size (data Scenario.cat_jpg)) etags)
      ++ EvCompleteMultipartUpload Scenario.bucket
           (Scenario.folder +:+ "/" +:+ "cat.JPG") [Part "etag-1" 1]
           "upload-1" (Returns tt) :: tail.
Proof.
  assert (Hfile : fs (Scenario.on_disk Scenario.cat_jpg) !! "cat.JPG"
                  = Some (data Scenario.cat_jpg))
    by (vm_compute; reflexivity).
  split; [exact Hfile |].
  assert (Hin : EvCompleteMultipartUpload Scenario.bucket
                  (Scenario.folder +:+ "/cat.JPG") [Part "etag-1" 1]
                  "upload-1" (Returns tt)
                ∈ events_of (multipart_upload Scenario.all_ok "cat.JPG"
                               Scenario.bucket Scenario.folder "cat.JPG")
                    (Scenario.on_disk Scenario.cat_jpg))
    by (vm_compute; repeat constructor).
  assert (Hlen : (0 < length (data Scenario.cat_jpg))%nat) by (simpl; lia).
  pose proof (multipart_upload_parts_numbered Scenario.all_ok "cat.JPG"
           Scenario.bucket Scenario.folder "cat.JPG"
           (Scenario.on_disk Scenario.cat_jpg) (data Scenario.cat_jpg)
           _ _ _ _ _ Hfile Hlen Hin) as H.
  destruct H as (_ & _ & _ & _ & H). exact H.
Defined.

(** ** [generate_presigned_url], [create_preview_html] and one iteration *)

Section UploadLoop.

Variable env : Services.

Lemma generate_presigned_url_run b key w :
  let out := s3_generate_presigned_url env (trace w) b key 3600 in
  generate_presigned_url env b key 3600 w =
    (presign_result out,
     {| fs := fs w; trace := trace w ++ presign_events b key out |}).
Proof.
  unfold generate_presigned_url, client_generate_presigned_url.
  rewrite call_run. simpl.
  destruct (s3_generate_presigned_url env (trace w) b key 3600)
    as [url | [[] msg]]; simpl; [done | | done].
  unfold print, log. rewrite bind_run. simpl. by rewrite <- app_assoc.
Qed.

Lemma upload_file_run b key w content :
  fs w !! "gallery.html" = Some content ->
  let out := s3_upload_file env (trace w) "gallery.html" b key "text/html"
               content in
  upload_file env "gallery.html" b key "text/html" w =
    (out,
     {| fs := fs w;
        trace := trace w
                 ++ [EvUploadFile "gallery.html" b key "text/html" content out]
     |}).
Proof.
  intros Hfile. unfold upload_file. rewrite bind_run. unfold open_rb.
  rewrite Hfile. by rewrite call_run.
Qed.

(** [create_preview_html] returns exactly when the page is accepted by the
    bucket; it then leaves no [gallery.html] behind. *)
Lemma create_preview_html_run image_links b folder w :
  let page := String.list_byte_of_string (html_content image_links) in
  let out := s3_upload_file env (trace w ++ [EvWrite "gallery.html" page])
               "gallery.html" b (gallery_key folder) "text/html" page in
  create_preview_html env image_links b folder w =
    match out with
    | Returns _ =>
        (Returns (gallery_key folder),
         {| fs := delete "gallery.html" (fs w);
            trace := trace w ++ gallery_steps b folder image_links |})
    | Raises e =>
        (Raises e,
         {| fs := <["gallery.html" := page]> (fs w);
            trace := trace w
                     ++ [EvWrite "gallery.html" page;
                         EvUploadFile "gallery.html" b (gallery_key folder)
                           "text/html" page (Raises e)] |})
    end.
Proof.
  intros page out. unfold create_preview_html.
  rewrite bind_run. unfold write_file at 1. fold page.
  rewrite bind_run.
  rewrite (upload_file_run _ _ _ page) by apply lookup_insert_eq.
  simpl fs. simpl trace. fold (gallery_key folder). fold out.
  destruct out as [[] | e].
  - rewrite bind_run. unfold os_remove. simpl. rewrite lookup_insert_eq.
    simpl. unfold ret. f_equal. f_equal.
    + apply delete_insert_eq.
    + unfold gallery_steps. fold page. by rewrite <- !app_assoc.
  - f_equal. f_equal. by rewrite <- app_assoc.
Qed.

Lemma mp_outcome_path file_path b key object_name content path evs :
  mp_outcome file_path b key object_name content (Returns (Some path)) evs ->
  path = key.
Proof.
  intros Hout. remember (Returns (Some path)) as r eqn:Hr.
  destruct Hout as [e | uid oa _ | uid bytes etags e oa _ _
                   | uid bytes etags e oa _ _ | uid bytes etags _ _];
    try (destruct oa; discriminate Hr); [discriminate Hr |].
  by injection Hr.
Qed.

Lemma truthy_key folder object_name :
  Py.truthy (folder +:+ "/" +:+ object_name) = true.
Proof. by destruct folder. Qed.

(** One iteration: it either runs to its end, with the temporary copy
    removed, or is left by an exception. *)
Lemma upload_one_run b folder file links w r w' :
  upload_one env b folder file links w = (r, w') ->
  exists evs, trace w' = trace w ++ evs /\
    match r with
    | Returns links' =>
        exists added, links' = links ++ added /\
          fs w' = delete (name file) (fs w) /\
          file_steps b folder file added evs
    | Raises e => file_interrupted b folder file e evs
    end.
Proof.
  unfold upload_one. rewrite bind_run. unfold write_file at 1.
  set (w0 := {| fs := <[name file := data file]> (fs w);
                trace := trace w ++ [EvWrite (name file) (data file)] |}).
  rewrite bind_run.
  destruct (multipart_upload env (name file) b folder (name file) w0)
    as [mr w1] eqn:Hmp.
  apply multipart_upload_run in Hmp as (Hfs & mp & Htr & Hout).
  simpl in Hfs, Htr, Hout. rewrite lookup_insert_eq in Hout.
  fold (object_key folder file) in Hout.
  assert (Hremove : forall (links' : list string) w2,
            fs w2 = fs w1 ->
            (os_remove (name file) ;; ret links')%py w2 =
              (Returns links',
               {| fs := delete (name file) (fs w);
                  trace := trace w2 ++ [EvRemove (name file)] |})).
  { intros links' w2 Hw2. rewrite bind_run. unfold os_remove.
    rewrite Hw2, Hfs, lookup_insert_eq. unfold ret. do 2 f_equal.
    apply delete_insert_eq. }
  destruct mr as [[path |] | e].
  - apply mp_outcome_path in Hout as Hpath. subst path.
    unfold object_key at 1. rewrite truthy_key, !bind_run.
    rewrite generate_presigned_url_run.
    set (out := s3_generate_presigned_url env (trace w1) b
                  (object_key folder file) 3600).
    destruct (presign_result out) as [presigned_url | e] eqn:Hres.
    + assert (Hkept :
        (match presigned_url with
         | Some url =>
             if Py.truthy url then ret (links ++ [url]) else ret links
         | None => ret links
         end : M (list string)) = ret (links ++ kept presigned_url)).
      { destruct presigned_url as [url |]; simpl;
          [destruct (Py.truthy url) |]; by rewrite ?app_nil_r. }
      rewrite Hkept. unfold ret at 1. rewrite Hremove by done.
      intros [= <- <-]. simpl. eexists. split.
      * rewrite Htr, <- !app_assoc. simpl. reflexivity.
      * exists (kept presigned_url). split_and!; [done | done |].
        by apply file_uploaded.
    + intros [= <- <-]. simpl. eexists. split.
      * rewrite Htr, <- !app_assoc. simpl. reflexivity.
      * by apply interrupted_in_url.
  - rewrite bind_run. unfold ret at 1. rewrite Hremove by done.
    intros [= <- <-]. simpl. eexists. split.
    + rewrite Htr, <- !app_assoc. simpl. reflexivity.
    + exists []. rewrite app_nil_r. split_and!; [done | done |].
      by apply file_upload_failed.
  - intros [= <- <-]. eexists. split.
    + rewrite Htr, <- !app_assoc. simpl. reflexivity.
    + by apply interrupted_in_upload.
Qed.

(** The loop: the iterations that ran to their end, in the order of the
    files, followed, when an exception leaves the loop, by the interrupted
    iteration. *)
Lemma upload_loop_run b folder files links w r w' :
  upload_loop env b folder files links w = (r, w') ->
  match r with
  | Returns links' =>
      exists added evs,
        links' = links ++ added /\
        fs w' = foldl (fun m file => delete (name file) m) (fs w) files /\
        trace w' = trace w ++ evs /\
        loop_steps b folder files added evs
  | Raises e =>
      exists processed file rest added evs evs',
        files = processed ++ file :: rest /\
        loop_steps b folder processed added evs /\
        file_interrupted b folder file e evs' /\
        trace w' = trace w ++ evs ++ evs'
  end.
Proof.
  revert links w. induction files as [|file files IH]; intros links w.
  - simpl. intros [= <- <-]. exists [], [].
    rewrite !app_nil_r. split_and!; [done | done | done | constructor].
  - simpl. rewrite bind_run.
    destruct (upload_one env b folder file links w) as [r1 w1] eqn:Hone.
    apply upload_one_run in Hone as (evs1 & Htr1 & Hone).
    destruct r1 as [links1 | e].
    + destruct Hone as (added1 & -> & Hfs1 & Hsteps1).
      intros Hrest. apply IH in Hrest. destruct r as [links' | e].
      * destruct Hrest as (added & evs & -> & Hfs & Htr & Hsteps).
        exists (added1 ++ added), (evs1 ++ evs). split_and!.
        -- by rewrite app_assoc.
        -- by rewrite Hfs, Hfs1.
        -- by rewrite Htr, Htr1, app_assoc.
        -- by constructor.
      * destruct Hrest
          as (processed & file' & rest & added & evs & evs' & -> & Hsteps
              & Hint & Htr).
        exists (file :: processed), file', rest, (added1 ++ added),
          (evs1 ++ evs), evs'.
        split_and!; [done | by constructor | done |].
        by rewrite Htr, Htr1, <- !app_assoc.
    + intros [= <- <-].
      exists [], file, files, [], [], evs1.
      split_and!; [done | constructor | done | done].
Qed.

End UploadLoop.

(** ** The whole run *)

Section Session.

Variable env : Services.

Lemma upload_multiple_unfold files b w :
  upload_multiple_images_to_s3 env files b w =
    let session_id := uuid4 env (trace w) in
    let folder := "uploads/" +:+ session_id in
    match upload_loop env b folder files [] (log (EvUuid4 session_id) w) with
    | (Returns image_links, w1) =>
        match create_preview_html env image_links b folder w1 with
        | (Returns path, w2) => generate_presigned_url env b path 3600 w2
        | (Raises e, w2) => (Raises e, w2)
        end
    | (Raises e, w1) => (Raises e, w1)
    end.
Proof. reflexivity. Qed.

Lemma upload_multiple_run files b w r w' :
  upload_multiple_images_to_s3 env files b w = (r, w') ->
  let folder := "uploads/" +:+ uuid4 env (trace w) in
  exists evs,
    trace w' = trace w ++ EvUuid4 (uuid4 env (trace w)) :: evs /\
    session_run b folder files r evs /\
    (returned r = true ->
     fs w' = delete "gallery.html"
               (foldl (fun m file => delete (name file) m) (fs w) files)).
Proof.
  rewrite upload_multiple_unfold. intros Hrun folder. revert Hrun.
  cbv zeta. fold folder.
  destruct (upload_loop env b folder files [] _) as [rl w1] eqn:Hloop.
  apply upload_loop_run in Hloop. simpl in Hloop.
  destruct rl as [image_links | e].
  - destruct Hloop as (added & evs & -> & Hfs & Htr & Hsteps). simpl in *.
    rewrite create_preview_html_run.
    destruct (s3_upload_file env _ _ _ _ _ _) as [[] | e].
    + rewrite generate_presigned_url_run. simpl fs. simpl trace.
      generalize (s3_generate_presigned_url env
                    (trace w1 ++ gallery_steps b folder added) b
                    (gallery_key folder) 3600).
      intros out [= <- <-]. simpl. eexists. split_and!.
      * rewrite Htr, <- !app_assoc. simpl. reflexivity.
      * by apply session_page_stored.
      * intros _. by rewrite Hfs.
    + intros [= <- <-]. simpl. eexists. split_and!.
      * rewrite Htr, <- !app_assoc. simpl. reflexivity.
      * by apply session_page_refused.
      * done.
  - destruct Hloop
      as (processed & file & rest & added & evs & evs' & -> & Hsteps & Hint
          & Htr).
    intros [= <- <-]. simpl in *. eexists. split_and!.
    + rewrite Htr, <- !app_assoc. simpl. reflexivity.
    + by eapply session_interrupted.
    + done.
Qed.

End Session.

(** ** Local files *)

Lemma lookup_foldl_delete (files : list UploadedFile)
    (m : gmap string (list byte)) path :
  foldl (fun m file => delete (name file) m) m files !! path =
    if decide (path ∈ name <$> files) then None else m !! path.
Proof.
  revert m. induction files as [|file files IH]; intros m.
  - simpl. destruct (decide (path ∈ [])) as [Hin | _]; [| done].
    by apply elem_of_nil in Hin.
  - simpl foldl. rewrite IH, fmap_cons.
    destruct (decide (path = name file)) as [-> | Hne].
    + rewrite lookup_delete_eq.
      destruct (decide (name file ∈ name <$> files)) as [_ | _];
        destruct (decide (name file ∈ name file :: (name <$> files)))
          as [_ | Hnot]; try done; exfalso; apply Hnot; constructor.
    + rewrite lookup_delete_ne by done.
      destruct (decide (path ∈ name <$> files)) as [Hin | Hnin];
        destruct (decide (path ∈ name file :: (name <$> files)))
          as [Hin' | Hnin']; try done.
      * exfalso. apply Hnin'. by constructor.
      * exfalso. apply elem_of_cons in Hin' as [? | ?]; done.
Qed.

(** C6 (amended): when [upload_multiple_images_to_s3] returns, no local
    file is left: the temporary copy of every submitted file is gone,
    whether or not its upload succeeded, and so is [gallery.html]; every
    other local path is as it was.  A run left by an exception is not
    covered. *)
Theorem no_local_file_left env files b w r w' :
  upload_multiple_images_to_s3 env files b w = (Returns r, w') ->
  (forall file, file ∈ files -> fs w' !! name file = None) /\
  fs w' !! "gallery.html" = None /\
  (forall path,
     path <> "gallery.html" ->
     (forall file, file ∈ files -> name file <> path) ->
     fs w' !! path = fs w !! path).
Proof.
  intros Hrun. apply upload_multiple_run in Hrun as (evs & _ & _ & Hfs).
  specialize (Hfs eq_refl). rewrite Hfs. split_and!.
  - intros file Hfile.
    destruct (decide (name file = "gallery.html")) as [-> | Hne];
      [apply lookup_delete_eq |].
    rewrite lookup_delete_ne by done. rewrite lookup_foldl_delete.
    case_decide as Hin; [done |]. exfalso. apply Hin.
    by apply list_elem_of_fmap_2.
  - apply lookup_delete_eq.
  - intros path Hg Hfiles. rewrite lookup_delete_ne by done.
    rewrite lookup_foldl_delete. case_decide as Hin; [| done].
    apply list_elem_of_fmap in Hin as (file & -> & Hfile).
    by destruct (Hfiles file Hfile).
Qed.

(** ** Order of the steps *)

(** C5 (amended): in every run of [upload_multiple_images_to_s3] the
    steps are, after the session id and as far as the run goes: for each
    file in input order, the write of the temporary copy, the multipart
    upload of that copy, the request of a pre-signed URL only when the
    upload gave an object path, the removal of the temporary copy; and only
    after all files the write of the gallery page, its upload, its removal
    and the request of its pre-signed URL.  A run that returns goes through
    all of them. *)
Theorem upload_steps_in_order env files b w :
  let folder := "uploads/" +:+ uuid4 env (trace w) in
  exists evs,
    events_of (upload_multiple_images_to_s3 env files b) w =
      EvUuid4 (uuid4 env (trace w)) :: evs /\
    session_run b folder files
      (upload_multiple_images_to_s3 env files b w).1 evs /\
    forall r,
      (upload_multiple_images_to_s3 env files b w).1 = Returns r ->
      exists image_links loop_evs out,
        loop_steps b folder files image_links loop_evs /\
        presign_result out = Returns r /\
        evs = loop_evs ++ gallery_steps b folder image_links
              ++ presign_events b (gallery_key folder) out.
Proof.
  intros folder.
  destruct (upload_multiple_images_to_s3 env files b w) as [res w'] eqn:Hrun.
  pose proof Hrun as Hrun'.
  apply upload_multiple_run in Hrun' as (evs & Htr & Hsession & _).
  fold folder in Hsession. exists evs. split_and!.
  - apply events_of_app. by rewrite Hrun.
  - done.
  - simpl. intros r ->. clear Hrun Htr.
    remember (Returns r) as res eqn:Hres.
    destruct Hsession
      as [? ? ? ? ? ? ? _ _ _ | ? ? ? _ | image_links loop_evs out Hsteps];
      try discriminate Hres.
    by exists image_links, loop_evs, out.
Qed.

(** ** Keys of the session *)

Section Keys.

Variables b folder : string.








End Keys.


(** ** Pre-signed URLs *)

Section Urls.

Variables b folder : string.

Lemma part_events_presigned key uid items outs :
  omap presigned (part_events b key uid items outs) = [].
Proof.
  unfold part_events. revert outs.
  induction items as [|it items IH]; intros [|out outs]; simpl; done.
Qed.

Lemma mp_outcome_presigned file_path key object_name content r evs :
  mp_outcome file_path b key object_name content r evs ->
  omap presigned evs = [].
Proof.
  assert (Hskip : forall ev evs',
            presigned ev = None ->
            omap presigned (ev :: evs') = omap presigned evs').
  { intros ev evs' Hev. change (omap presigned (ev :: evs'))
      with (match presigned ev with
            | Some x => x :: omap presigned evs'
            | None => omap presigned evs'
            end). by rewrite Hev. }
  destruct 1;
    repeat first
      [ rewrite Hskip by reflexivity
      | rewrite omap_app, part_events_presigned, app_nil_l ];
    reflexivity.
Qed.

Lemma part_events_refused key uid items etags e :
  (length etags < length items)%nat ->
  ~ Forall (fun ev => succeeded ev = true)
      (part_events b key uid items ((Returns <$> etags) ++ [Raises e])).
Proof.
  unfold part_events. revert etags.
  induction items as [|it items IH]; intros etags Hlen; [simpl in Hlen; lia |].
  destruct etags as [|etag etags]; simpl.
  - intros Hall. apply Forall_cons in Hall as [Hfail _]. discriminate Hfail.
  - intros Hall. apply Forall_cons in Hall as [_ Hall].
    apply (IH etags); [simpl in Hlen; lia | done].
Qed.

(** When no call was refused, the upload has completed. *)
Lemma mp_outcome_succeeded file_path key object_name bytes r evs :
  mp_outcome file_path b key object_name (Some bytes) r evs ->
  Forall (fun ev => succeeded ev = true) evs ->
  r = Returns (Some key).
Proof.
  destruct 1 as [e | uid oa Hc | uid bytes' etags e oa Hc Hlen
                | uid bytes' etags e oa Hc Hlen | uid bytes' etags Hc Hlen];
    intros Hall; [| discriminate Hc | | | done]; exfalso.
  - apply Forall_cons in Hall as [Hfail _]. discriminate Hfail.
  - apply Forall_cons in Hall as [_ Hall].
    apply Forall_app in Hall as [Hall _].
    by apply part_events_refused in Hall.
  - apply Forall_cons in Hall as [_ Hall].
    apply Forall_app in Hall as [_ Hall].
    apply Forall_cons in Hall as [Hfail _]. discriminate Hfail.
Qed.






End Urls.


(** ** Exceptions during an upload *)

(** C1 (amended): for every file of the loop, when an exception is raised
    in the [try] block of [multipart_upload] and the abort request, if one
    is made, returns: the exception is caught and [multipart_upload]
    returns [None]; the error is printed; [abort_multipart_upload] is
    called exactly when [create_multipart_upload] had returned; and the
    loop of [upload_multiple_images_to_s3] removes the temporary copy and
    goes on with the next file. *)
Theorem multipart_upload_exception_handled env b folder file files links w
    upload_id e w1 :
  let w0 := (write_file (name file) (data file) w).2 in
  let key := folder +:+ "/" +:+ name file in
  multipart_upload_try env (name file) b key (name file) w0
    = (upload_id, (Raises e, w1)) ->
  (forall uid, upload_id = Some uid ->
     s3_abort_multipart_upload env (trace w1 ++ [error_line (name file) e])
       b key uid = Returns tt) ->
  (is_Some upload_id <->
   returned (s3_create_multipart_upload env (trace w0) b key
               (content_type (name file))) = true) /\
  exists w2,
    multipart_upload env (name file) b folder (name file) w0
      = (Returns None, w2) /\
    trace w2 =
      trace w1 ++ error_line (name file) e
      :: match upload_id with
         | Some uid => [EvAbortMultipartUpload b key uid (Returns tt)]
         | None => []
         end /\
    upload_loop env b folder (file :: files) links w =
      upload_loop env b folder files links
        {| fs := delete (name file) (fs w);
           trace := trace w2 ++ [EvRemove (name file)] |}.
Proof.
  intros w0 key Htry Habort. split.
  - revert Htry. unfold multipart_upload_try, create_multipart_upload.
    rewrite call_run.
    destruct (s3_create_multipart_upload env (trace w0) b key
                (content_type (name file))) as [uid | e'].
    + intros [= <- _]. by split.
    + intros [= <- _ _]. split; [by intros [? ?] | done].
  - destruct (multipart_upload env (name file) b folder (name file) w0)
      as [r w2] eqn:Hmp.
    pose proof Hmp as Hfs. apply multipart_upload_run in Hfs as [Hfs _].
    pose proof Hmp as Hrun.
    revert Hrun. unfold multipart_upload. fold key. rewrite Htry.
    unfold multipart_upload_except, print, abort_multipart_upload, ret.
    rewrite !bind_run. fold (error_line (name file) e). simpl trace.
    assert (Hnext : forall w2,
              fs w2 = fs w0 ->
              multipart_upload env (name file) b folder (name file) w0
                = (Returns None, w2) ->
              upload_loop env b folder (file :: files) links w =
                upload_loop env b folder files links
                  {| fs := delete (name file) (fs w);
                     trace := trace w2 ++ [EvRemove (name file)] |}).
    { intros w3 Hfs3 Hmp3. simpl upload_loop. unfold upload_one.
      rewrite !bind_run. unfold write_file at 1.
      change {| fs := <[name file := data file]> (fs w);
                trace := trace w ++ [EvWrite (name file) (data file)] |}
        with w0.
      rewrite bind_run, Hmp3, bind_run. unfold ret at 1.
      rewrite bind_run. unfold os_remove.
      rewrite Hfs3. simpl. rewrite lookup_insert_eq. unfold ret.
      by rewrite delete_insert_eq. }
    destruct upload_id as [uid |].
    + rewrite call_run. simpl trace. rewrite (Habort uid eq_refl).
      intros Heq. injection Heq as Hr Hw. subst r.
      exists w2. split; [done |]. split.
      * rewrite <- Hw. simpl. by rewrite <- app_assoc.
      * by apply Hnext.
    + intros Heq. injection Heq as Hr Hw. subst r.
      exists w2. split; [done |]. split.
      * by rewrite <- Hw.
      * by apply Hnext.
Qed.

(** ** The gallery when nothing was uploaded *)

(** C10 (amended): when the loop ends with an empty [image_links] (every
    upload or URL request of a file failed),
    [upload_multiple_images_to_s3] still writes a [gallery.html] without
    any image entry and sends it to the bucket; when the bucket accepts the
    page and the URL request for the page returns, the function returns
    that URL, and the form reports success when the URL is not empty. *)
Theorem empty_gallery_still_published env files b w w1 :
  let session_id := uuid4 env (trace w) in
  let folder := "uploads/" +:+ session_id in
  let page := String.list_byte_of_string (html_content []) in
  upload_loop env b folder files [] (log (EvUuid4 session_id) w)
    = (Returns [], w1) ->
  html_content [] = html_head +:+ html_tail /\
  String.index 0 "<img" (html_content []) = None /\
  exists out rest,
    trace (upload_multiple_images_to_s3 env files b w).2 =
      trace w1 ++ EvWrite "gallery.html" page
      :: EvUploadFile "gallery.html" b (folder +:+ "/gallery.html")
           "text/html" page out
      :: rest /\
    forall url,
      out = Returns tt ->
      s3_generate_presigned_url env (trace w1 ++ gallery_steps b folder [])
        b (folder +:+ "/gallery.html") 3600 = Returns url ->
      (upload_multiple_images_to_s3 env files b w).1 = Returns (Some url) /\
      (Py.truthy url = true -> Py.truthy (Py.strip b) = true ->
       files <> [] ->
       (on_upload env b files w).1 =
         Returns [st_success "Files uploaded successfully!";
                  st_write "### View Uploaded Images:";
                  st_markdown ("[Click to View Image Gallery](" +:+ url
                               +:+ ")")]).
Proof.
  intros session_id folder page Hloop.
  split; [reflexivity |]. split; [vm_compute; reflexivity |].
  assert (Hon : forall url w',
            upload_multiple_images_to_s3 env files b w
              = (Returns (Some url), w') ->
            Py.truthy url = true -> Py.truthy (Py.strip b) = true ->
            files <> [] ->
            (on_upload env b files w).1 =
              Returns [st_success "Files uploaded successfully!";
                       st_write "### View Uploaded Images:";
                       st_markdown ("[Click to View Image Gallery](" +:+ url
                                    +:+ ")")]).
  { intros url w' Hrun Hurl Hb Hfiles. unfold on_upload. rewrite Hb.
    destruct files as [|file files']; [done |].
    cbv beta iota delta [negb].
    rewrite bind_run, Hrun, Hurl. reflexivity. }
  pose proof (upload_multiple_unfold env files b w) as Hrun.
  cbv zeta in Hrun. fold session_id in Hrun. fold folder in Hrun.
  rewrite Hloop, create_preview_html_run in Hrun. fold page in Hrun.
  unfold gallery_key in Hrun.
  destruct (s3_upload_file env _ _ _ _ _ _) as [[] | e].
  - rewrite generate_presigned_url_run in Hrun.
    simpl fs in Hrun. simpl trace in Hrun. unfold gallery_key in Hrun.
    exists (Returns tt). eexists. split.
    + rewrite Hrun. unfold gallery_steps. fold page. simpl.
      rewrite <- app_assoc. simpl. reflexivity.
    + intros url _ Hurl. rewrite Hurl in Hrun. simpl in Hrun.
      split; [by rewrite Hrun |]. by eapply Hon.
  - exists (Raises e), []. split; [by rewrite Hrun |].
    intros url Hout. discriminate Hout.
Qed.

(** ** The face script *)

(** C7: the face script calls [DeepFace.verify] on the two pairs of
    images, then draws on the loaded first image the rectangle with corners
    [(x, y)] and [(x + w, y + h)], where [(x, y, w, h)] is the facial area
    the first [verify] call reports for its first image, then displays the
    annotated image and calls [DeepFace.find]. *)
Theorem face_script_steps {image : Type} (lib : FaceDetection.Library image)
    out1 out2 x y w h ig0 :
  FaceDetection.verify lib FaceDetection.p_modi1 FaceDetection.p_modi2
    = Returns out1 ->
  FaceDetection.verify lib FaceDetection.p_modi1 FaceDetection.p_trump
    = Returns out2 ->
  FaceDetection.facial_areas_img1 out1 = [x; y; w; h] ->
  FaceDetection.imread lib FaceDetection.p_modi1 = Some ig0 ->
  let annotated :=
    FaceDetection.rectangle lib ig0 (x, y) (x + w, y + h) (0, 0, 255) 3 in
  let out3 :=
    FaceDetection.find lib FaceDetection.p_modi1 FaceDetection.p_fold in
  (FaceDetection.main lib []).2 =
    [FaceDetection.DeepFace_verify FaceDetection.p_modi1
       FaceDetection.p_modi2 (Returns out1);
     FaceDetection.DeepFace_verify FaceDetection.p_modi1
       FaceDetection.p_trump (Returns out2);
     FaceDetection.Print
       [FaceDetection.PVerify out1; FaceDetection.PStr "OUT 1"];
     FaceDetection.Print
       [FaceDetection.PInt x; FaceDetection.PInt y; FaceDetection.PInt w;
        FaceDetection.PInt h];
     FaceDetection.cv2_imread FaceDetection.p_modi1 (Some ig0);
     FaceDetection.cv2_rectangle ig0 (x, y) (x + w, y + h) (0, 0, 255) 3;
     FaceDetection.cv2_imshow annotated;
     FaceDetection.DeepFace_find FaceDetection.p_modi1
       FaceDetection.p_fold out3]
    ++ match out3 with
       | Returns (frame :: _) =>
           [FaceDetection.Print [FaceDetection.PFrame frame]]
       | _ => []
       end.
Proof.
  intros Hv1 Hv2 Harea Himg annotated out3.
  unfold FaceDetection.main, FaceDetection.sbind, FaceDetection.lib_call,
    FaceDetection.act, FaceDetection.load.
  rewrite Hv1, Hv2, Harea, Himg. simpl.
  fold out3. destruct out3 as [[|frame frames] | e]; reflexivity.
Qed.

Lemma face_script_steps_witness :
  (FaceDetection.main Scenario.face_lib []).2 =
    [FaceDetection.DeepFace_verify FaceDetection.p_modi1
       FaceDetection.p_modi2
       (Returns (FaceDetection.VerifyOut [10; 20; 30; 40] "{'verified': True}"));
     FaceDetection.DeepFace_verify FaceDetection.p_modi1
       FaceDetection.p_trump
       (Returns (FaceDetection.VerifyOut [10; 20; 30; 40] "{'verified': True}"));
     FaceDetection.Print
       [FaceDetection.PVerify
          (FaceDetection.VerifyOut [10; 20; 30; 40] "{'verified': True}");
        FaceDetection.PStr "OUT 1"];
     FaceDetection.Print
       [FaceDetection.PInt 10; FaceDetection.PInt 20; FaceDetection.PInt 30;
        FaceDetection.PInt 40];
     FaceDetection.cv2_imread FaceDetection.p_modi1 (Some []);
     FaceDetection.cv2_rectangle [] (10, 20) (10 + 30, 20 + 40) (0, 0, 255) 3;
     FaceDetection.cv2_imshow
       (FaceDetection.rectangle Scenario.face_lib [] (10, 20)
          (10 + 30, 20 + 40) (0, 0, 255) 3);
     FaceDetection.DeepFace_find FaceDetection.p_modi1 FaceDetection.p_fold
       (FaceDetection.find Scenario.face_lib FaceDetection.p_modi1
          FaceDetection.p_fold)]
    ++ match FaceDetection.find Scenario.face_lib FaceDetection.p_modi1
               FaceDetection.p_fold with
       | Returns (frame :: _) =>
           [FaceDetection.Print [FaceDetection.PFrame frame]]
       | _ => []
       end.
Proof.
  apply (face_script_steps Scenario.face_lib
           (FaceDetection.VerifyOut [10; 20; 30; 40] "{'verified': True}")
           (FaceDetection.VerifyOut [10; 20; 30; 40] "{'verified': True}")
           10 20 30 40 []); reflexivity.
Defined.

(** ** Concrete runs *)

(** A part is refused, the abort request goes through: the upload of
    [cat.JPG] gives [None] and the loop goes on with [dog.png]. *)
Lemma multipart_upload_exception_handled_witness :
  exists w2,
    multipart_upload Scenario.part_rejected "cat.JPG" Scenario.bucket
      Scenario.folder "cat.JPG"
      (write_file "cat.JPG" (data Scenario.cat_jpg) Scenario.w0).2
      = (Returns None, w2) /\
    upload_loop Scenario.part_rejected Scenario.bucket Scenario.folder
      [Scenario.cat_jpg; Scenario.dog_png] [] Scenario.w0 =
      upload_loop Scenario.part_rejected Scenario.bucket Scenario.folder
        [Scenario.dog_png] []
        {| fs := delete "cat.JPG" (fs Scenario.w0);
           trace := trace w2 ++ [EvRemove "cat.JPG"] |}.
Proof.
  destruct (multipart_upload_exception_handled Scenario.part_rejected
              Scenario.bucket Scenario.folder Scenario.cat_jpg
              [Scenario.dog_png] [] Scenario.w0 (Some "upload-1")
              (Exn ClientError "RequestTimeout")
              (multipart_upload_try Scenario.part_rejected "cat.JPG"
                 Scenario.bucket (Scenario.folder +:+ "/" +:+ "cat.JPG")
                 "cat.JPG"
                 (write_file "cat.JPG" (data Scenario.cat_jpg)
                    Scenario.w0).2).2.2)
    as (_ & w2 & Hmp & _ & Hloop).
  - vm_compute. reflexivity.
  - intros uid _. reflexivity.
  - exists w2. split; [exact Hmp | exact Hloop].
Defined.

(** C1 as stated fails when the abort request itself raises: the session
    is open, sending the part raises, the handler prints the error and asks
    for the abort, which raises too.  [multipart_upload] does not return
    [None], and the loop never reaches [dog.png]. *)
Lemma abort_failure_leaves_the_loop :
  (multipart_upload_try Scenario.connection_lost "cat.JPG" Scenario.bucket
     (Scenario.folder +:+ "/" +:+ "cat.JPG") "cat.JPG"
     (write_file "cat.JPG" (data Scenario.cat_jpg) Scenario.w0).2).2.1
    = Raises (Exn OtherException "EndpointConnectionError") /\
  (multipart_upload Scenario.connection_lost "cat.JPG" Scenario.bucket
     Scenario.folder "cat.JPG"
     (write_file "cat.JPG" (data Scenario.cat_jpg) Scenario.w0).2).1
    = Raises (Exn OtherException "EndpointConnectionError") /\
  (upload_loop Scenario.connection_lost Scenario.bucket Scenario.folder
     [Scenario.cat_jpg; Scenario.dog_png] [] Scenario.w0).1
    = Raises (Exn OtherException "EndpointConnectionError") /\
  trace (upload_loop Scenario.connection_lost Scenario.bucket Scenario.folder
           [Scenario.cat_jpg; Scenario.dog_png] [] Scenario.w0).2
    = [EvWrite "cat.JPG" (data Scenario.cat_jpg);
       EvCreateMultipartUpload Scenario.bucket
         (Scenario.folder +:+ "/cat.JPG") "image/jpeg" (Returns "upload-1");
       EvUploadPart Scenario.bucket (Scenario.folder +:+ "/cat.JPG") 1
         "upload-1" (data Scenario.cat_jpg)
         (Raises (Exn OtherException "EndpointConnectionError"));
       EvPrint "Error uploading cat.JPG: EndpointConnectionError";
       EvAbortMultipartUpload Scenario.bucket
         (Scenario.folder +:+ "/cat.JPG") "upload-1"
         (Raises (Exn OtherException "EndpointConnectionError"))].
Proof. vm_compute. repeat split. Qed.



(** C5 as stated fails when an upload fails: the session for [cat.JPG] is
    refused, and between the upload and the removal of the temporary copy no
    URL is requested for it. *)
Lemma refused_upload_skips_the_url :
  events_of (upload_multiple_images_to_s3 Scenario.create_denied
               [Scenario.cat_jpg] Scenario.bucket) Scenario.w0
  = [EvUuid4 "1b4e28ba-2fa1-41d2-883f-0016d3cca427";
     EvWrite "cat.JPG" (data Scenario.cat_jpg);
     EvCreateMultipartUpload Scenario.bucket (Scenario.folder +:+ "/cat.JPG")
       "image/jpeg" (Raises (Exn ClientError "AccessDenied"));
     EvPrint "Error uploading cat.JPG: AccessDenied";
     EvRemove "cat.JPG";
     EvWrite "gallery.html" (String.list_byte_of_string (html_content []));
     EvUploadFile "gallery.html" Scenario.bucket
       (Scenario.folder +:+ "/gallery.html") "text/html"
       (String.list_byte_of_string (html_content [])) (Returns tt);
     EvRemove "gallery.html";
     EvGeneratePresignedUrl Scenario.bucket
       (Scenario.folder +:+ "/gallery.html") 3600
       (Returns ("https://s3.example/" +:+ Scenario.folder
                 +:+ "/gallery.html?sig"))] /\
  (upload_multiple_images_to_s3 Scenario.create_denied [Scenario.cat_jpg]
     Scenario.bucket Scenario.w0).1
  = Returns (Some ("https://s3.example/" +:+ Scenario.folder
                   +:+ "/gallery.html?sig")).
Proof. vm_compute. split; reflexivity. Qed.

Lemma no_local_file_left_witness :
  (forall file, file ∈ [Scenario.cat_jpg; Scenario.dog_png] ->
     fs (upload_multiple_images_to_s3 Scenario.part_rejected
           [Scenario.cat_jpg; Scenario.dog_png] Scenario.bucket
           (Scenario.on_disk (File "notes.txt" [x2a]%byte))).2
       !! name file = None) /\
  fs (upload_multiple_images_to_s3 Scenario.part_rejected
        [Scenario.cat_jpg; Scenario.dog_png] Scenario.bucket
        (Scenario.on_disk (File "notes.txt" [x2a]%byte))).2
    !! "gallery.html" = None.
Proof.
  destruct (no_local_file_left Scenario.part_rejected
              [Scenario.cat_jpg; Scenario.dog_png] Scenario.bucket
              (Scenario.on_disk (File "notes.txt" [x2a]%byte))
              (Some ("https://s3.example/" +:+ Scenario.folder
                     +:+ "/gallery.html?sig"))
              (upload_multiple_images_to_s3 Scenario.part_rejected
                 [Scenario.cat_jpg; Scenario.dog_png] Scenario.bucket
                 (Scenario.on_disk (File "notes.txt" [x2a]%byte))).2)
    as (Hfiles & Hgallery & _).
  - vm_compute. reflexivity.
  - split; [exact Hfiles | exact Hgallery].
Defined.

Lemma empty_gallery_still_published_witness :
  (upload_multiple_images_to_s3 Scenario.create_denied [Scenario.cat_jpg]
     Scenario.bucket Scenario.w0).1
    = Returns (Some ("https://s3.example/" +:+ Scenario.folder
                     +:+ "/gallery.html?sig")) /\
  (on_upload Scenario.create_denied Scenario.bucket [Scenario.cat_jpg]
     Scenario.w0).1 =
    Returns [st_success "Files uploaded successfully!";
             st_write "### View Uploaded Images:";
             st_markdown ("[Click to View Image Gallery]("
                          +:+ ("https://s3.example/" +:+ Scenario.folder
                               +:+ "/gallery.html?sig") +:+ ")")].
Proof.
  destruct (empty_gallery_still_published Scenario.create_denied
              [Scenario.cat_jpg] Scenario.bucket Scenario.w0
              (upload_loop Scenario.create_denied Scenario.bucket
                 Scenario.folder [Scenario.cat_jpg] []
                 (log (EvUuid4 (uuid4 Scenario.create_denied
                                  (trace Scenario.w0))) Scenario.w0)).2)
    as (_ & _ & out & rest & Htrace & Hurl).
  - vm_compute. reflexivity.
  - assert (Hout : out = Returns tt).
    { revert Htrace. vm_compute. intros Htrace.
      by injection Htrace as Hout _. }
    destruct (Hurl ("https://s3.example/" +:+ Scenario.folder
                    +:+ "/gallery.html?sig") Hout)
      as [Hres Hform]; [vm_compute; reflexivity |].
    split; [exact Hres |].
    apply Hform; [reflexivity | vm_compute; reflexivity | discriminate].
Defined.

(** C6 as stated fails when a call raises outside a handler.  The bucket
    refuses the page: [cat.JPG] was uploaded and its copy removed, the
    upload of the page raises, the exception leaves the function and
    [gallery.html] is still on disk.  The connection is lost during the
    upload of [cat.JPG]: the abort raises, the exception leaves the function
    and the temporary copy [cat.JPG] is still on disk. *)
Lemma failed_page_upload_leaves_files :
  (upload_multiple_images_to_s3 Scenario2.page_refused [Scenario.cat_jpg]
     Scenario.bucket Scenario.w0).1
    = Raises (Exn OtherException "S3UploadFailedError") /\
  fs (upload_multiple_images_to_s3 Scenario2.page_refused [Scenario.cat_jpg]
        Scenario.bucket Scenario.w0).2 !! "gallery.html"
    = Some (String.list_byte_of_string
              (html_content
                 ["https://s3.example/" +:+ Scenario.folder
                  +:+ "/cat.JPG?sig"])) /\
  (upload_multiple_images_to_s3 Scenario.connection_lost [Scenario.cat_jpg]
     Scenario.bucket Scenario.w0).1
    = Raises (Exn OtherException "EndpointConnectionError") /\
  fs (upload_multiple_images_to_s3 Scenario.connection_lost
        [Scenario.cat_jpg] Scenario.bucket Scenario.w0).2 !! "cat.JPG"
    = Some (data Scenario.cat_jpg).
Proof. vm_compute. repeat split. Qed.

(** C10 as stated fails when the URL requests are what fails.  Every URL
    request is refused with a [ClientError]: [cat.JPG] is uploaded,
    [image_links] stays empty, the page without entries is written and
    uploaded, but the URL request for the page is refused too: the function
    returns [None] and the form reports the failure. *)
Lemma refused_urls_report_failure :
  (upload_loop Scenario2.url_denied Scenario.bucket Scenario.folder
     [Scenario.cat_jpg] []
     (log (EvUuid4 (uuid4 Scenario2.url_denied (trace Scenario.w0)))
        Scenario.w0)).1
    = Returns [] /\
  EvUploadFile "gallery.html" Scenario.bucket
    (Scenario.folder +:+ "/gallery.html") "text/html"
    (String.list_byte_of_string (html_content [])) (Returns tt)
    ∈ trace (upload_multiple_images_to_s3 Scenario2.url_denied
               [Scenario.cat_jpg] Scenario.bucket Scenario.w0).2 /\
  (upload_multiple_images_to_s3 Scenario2.url_denied [Scenario.cat_jpg]
     Scenario.bucket Scenario.w0).1
    = Returns None /\
  (on_upload Scenario2.url_denied Scenario.bucket [Scenario.cat_jpg]
     Scenario.w0).1
    = Returns [st_error "Failed to generate a preview link."].
Proof.
  vm_compute. split_and!; try reflexivity. repeat constructor.
Qed.

(** * Further properties of the code *)

(** ** [multipart_upload]: local files, outcome, sessions *)

Lemma last_cons_snoc {A} (x : A) (l : list A) (y : A) :
  last (x :: l ++ [y]) = Some y.
Proof. by rewrite app_comm_cons, last_snoc. Qed.

Lemma last_cons_snoc2 {A} (x : A) (l : list A) (y z : A) :
  last (x :: l ++ [y; z]) = Some z.
Proof.
  change (x :: l ++ [y; z]) with ((x :: l) ++ [y; z]).
  by rewrite (app_assoc _ [y] [z]), last_snoc.
Qed.

Lemma last_cons_snoc3 {A} (x : A) (l : list A) (y z t : A) :
  last (x :: l ++ [y; z; t]) = Some t.
Proof.
  change (x :: l ++ [y; z; t]) with ((x :: l) ++ [y; z] ++ [t]).
  by rewrite app_assoc, last_snoc.
Qed.

Lemma multipart_upload_outcome env file_path b folder object_name w :
  mp_outcome file_path b (folder +:+ "/" +:+ object_name) object_name
    (fs w !! file_path)
    (multipart_upload env file_path b folder object_name w).1
    (events_of (multipart_upload env file_path b folder object_name) w).
Proof.
  destruct (multipart_upload_events env file_path b folder object_name w)
    as (r & evs & <- & <- & Hout). exact Hout.
Qed.

(** X1: [multipart_upload] never changes a local file, whatever the bucket
    answers and whether it returns or raises. *)
Theorem multipart_upload_keeps_local_files env file_path b folder
    object_name w :
  fs (multipart_upload env file_path b folder object_name w).2 = fs w.
Proof.
  destruct (multipart_upload env file_path b folder object_name w)
    as [r w'] eqn:Hrun.
  by apply multipart_upload_run in Hrun as [Hfs _].
Qed.

Lemma part_events_returned b key uid items etags :
  Forall (fun ev => succeeded ev = true)
    (part_events b key uid items (Returns <$> etags)).
Proof.
  unfold part_events. revert etags.
  induction items as [|it items IH]; intros [|etag etags];
    try apply Forall_nil_2.
  apply Forall_cons. split; [reflexivity | apply IH].
Qed.

(** X2: with the local file in place, [multipart_upload] returns an object
    path exactly when none of its calls on the bucket raised, and that path
    is [folder/object_name]. *)
Theorem multipart_upload_path_iff_no_failure env file_path b folder
    object_name w content :
  fs w !! file_path = Some content ->
  ((multipart_upload env file_path b folder object_name w).1
     = Returns (Some (folder +:+ "/" +:+ object_name)) <->
   Forall (fun ev => succeeded ev = true)
     (events_of (multipart_upload env file_path b folder object_name) w)) /\
  (forall path,
     (multipart_upload env file_path b folder object_name w).1
       = Returns (Some path) ->
     path = folder +:+ "/" +:+ object_name).
Proof.
  intros Hfile.
  pose proof (multipart_upload_outcome env file_path b folder object_name w)
    as Hout.
  rewrite Hfile in Hout. revert Hout.
  generalize (multipart_upload env file_path b folder object_name w).1.
  generalize (events_of (multipart_upload env file_path b folder object_name) w).
  intros evs r Hout. split; [split |].
  - intros ->. remember (Returns (Some (folder +:+ "/" +:+ object_name))) as r.
    destruct Hout as [e | uid oa Hc | uid bytes etags e oa Hc Hlen
                     | uid bytes etags e oa Hc Hlen | uid bytes etags Hc Hlen];
      try (destruct oa; discriminate Heqr); [discriminate Heqr |].
    apply Forall_cons. split; [reflexivity |].
    apply Forall_app. split; [apply part_events_returned |].
    apply Forall_cons. split; [reflexivity | apply Forall_nil_2].
  - intros Hall. by eapply mp_outcome_succeeded.
  - intros path ->. by eapply mp_outcome_path.
Qed.

Lemma multipart_upload_path_iff_no_failure_witness :
  (multipart_upload Scenario.all_ok "cat.JPG" Scenario.bucket Scenario.folder
     "cat.JPG" (Scenario.on_disk Scenario.cat_jpg)).1
    = Returns (Some (Scenario.folder +:+ "/" +:+ "cat.JPG")) <->
  Forall (fun ev => succeeded ev = true)
    (events_of (multipart_upload Scenario.all_ok "cat.JPG" Scenario.bucket
                  Scenario.folder "cat.JPG")
       (Scenario.on_disk Scenario.cat_jpg)).
Proof.
  destruct (multipart_upload_path_iff_no_failure Scenario.all_ok "cat.JPG"
              Scenario.bucket Scenario.folder "cat.JPG"
              (Scenario.on_disk Scenario.cat_jpg) (data Scenario.cat_jpg))
    as [Hiff _].
  - vm_compute. reflexivity.
  - exact Hiff.
Defined.

Lemma part_events_not_create b key uid items outs ev :
  ev ∈ part_events b key uid items outs -> is_upload_part ev.
Proof.
  intros Hev.
  pose proof (part_events_is_upload_part b key uid items outs) as Hall.
  rewrite Forall_forall in Hall. by apply Hall.
Qed.

(** The events of a run, seen from outside: a head (the create call), the
    part calls, and a short tail. *)
Lemma mp_outcome_layout file_path b key object_name content r evs :
  mp_outcome file_path b key object_name content r evs ->
  exists out parts_sent tail,
    evs = EvCreateMultipartUpload b key (content_type object_name) out
          :: parts_sent ++ tail /\
    Forall is_upload_part parts_sent /\
    match out with
    | Raises e => parts_sent = [] /\ tail = [error_line object_name e] /\
                  r = Returns None
    | Returns uid =>
        (exists ps, tail = [EvCompleteMultipartUpload b key ps uid (Returns tt)]
                    /\ r = Returns (Some key))
        \/ (exists ps e oa,
              tail = [EvCompleteMultipartUpload b key ps uid (Raises e);
                      error_line object_name e;
                      EvAbortMultipartUpload b key uid oa]
              /\ r = handler_result oa)
        \/ (exists e oa,
              tail = [error_line object_name e;
                      EvAbortMultipartUpload b key uid oa]
              /\ r = handler_result oa)
    end.
Proof.
  destruct 1 as [e | uid oa Hc | uid bytes etags e oa Hc Hlen
                | uid bytes etags e oa Hc Hlen | uid bytes etags Hc Hlen].
  - exists (Raises e), [], [error_line object_name e].
    split; [reflexivity |]. split; [apply Forall_nil_2 |]. by split_and!.
  - exists (Returns uid), [],
      [error_line object_name (FileNotFoundError file_path);
       EvAbortMultipartUpload b key uid oa].
    split; [reflexivity |]. split; [apply Forall_nil_2 |].
    right. right. by eexists _, _.
  - eexists (Returns uid), _, _. split; [reflexivity |].
    split; [apply part_events_is_upload_part |].
    right. right. by eexists _, _.
  - eexists (Returns uid), _, _. split; [reflexivity |].
    split; [apply part_events_is_upload_part |].
    right. left. by eexists _, _, _.
  - eexists (Returns uid), _, _. split; [reflexivity |].
    split; [apply part_events_is_upload_part |].
    left. by eexists.
Qed.

Lemma handler_result_no_path oa key :
  handler_result oa <> Returns (Some key).
Proof. by destruct oa. Qed.

(** X3: [multipart_upload] leaves no session open without trying to close
    it.  When [create_multipart_upload] returned an upload id, the last call
    of the run is either the completion of that upload, which returned (and
    the object path is returned), or the abort of that upload (and no object
    path is returned).  An abort is only ever requested for the upload id
    that this run opened. *)
Theorem multipart_session_is_closed env file_path b folder object_name w :
  let key := folder +:+ "/" +:+ object_name in
  let evs := events_of (multipart_upload env file_path b folder object_name) w in
  let r := (multipart_upload env file_path b folder object_name w).1 in
  (forall b' key' ct' uid,
     EvCreateMultipartUpload b' key' ct' (Returns uid) ∈ evs ->
     (r = Returns (Some key) /\
      exists ps, last evs
                 = Some (EvCompleteMultipartUpload b key ps uid (Returns tt)))
     \/ (r <> Returns (Some key) /\
         exists oa, last evs = Some (EvAbortMultipartUpload b key uid oa))) /\
  (forall b' key' uid oa,
     EvAbortMultipartUpload b' key' uid oa ∈ evs ->
     b' = b /\ key' = key /\
     head evs = Some (EvCreateMultipartUpload b key (content_type object_name)
                        (Returns uid))).
Proof.
  intros key evs r.
  pose proof (multipart_upload_outcome env file_path b folder object_name w)
    as Hout.
  fold key evs r in Hout. clearbody evs r.
  apply mp_outcome_layout in Hout
    as (out & parts_sent & tail & -> & Hparts & Hcases).
  rewrite Forall_forall in Hparts.
  split.
  - intros b' key' ct' uid Hin.
    apply elem_of_cons in Hin as [Heq | Hin].
    + injection Heq as -> -> -> <-.
      destruct Hcases as [(ps & -> & ->) | [(ps & e & oa & -> & ->)
                                           | (e & oa & -> & ->)]].
      * left. split; [done |]. exists ps. apply last_cons_snoc.
      * right. split; [apply handler_result_no_path |].
        exists oa. apply last_cons_snoc3.
      * right. split; [apply handler_result_no_path |].
        exists oa. apply last_cons_snoc2.
    + exfalso. apply elem_of_app in Hin as [Hin | Hin];
        [by apply Hparts in Hin |].
      destruct out as [uid0 | e0].
      * destruct Hcases as [(ps & -> & _) | [(ps & e & oa & -> & _)
                                            | (e & oa & -> & _)]];
          repeat (apply elem_of_cons in Hin as [Hin | Hin];
                  [discriminate Hin |]);
          by apply elem_of_nil in Hin.
      * destruct Hcases as (_ & -> & _).
        apply list_elem_of_singleton in Hin. discriminate Hin.
  - intros b' key' uid oa Hin.
    apply elem_of_cons in Hin as [Heq | Hin]; [discriminate Heq |].
    apply elem_of_app in Hin as [Hin | Hin]; [by apply Hparts in Hin |].
    destruct out as [uid0 | e0].
    + destruct Hcases as [(ps & -> & _) | [(ps & e & oa0 & -> & _)
                                          | (e & oa0 & -> & _)]].
      * apply list_elem_of_singleton in Hin. discriminate Hin.
      * apply elem_of_cons in Hin as [Hin | Hin]; [discriminate Hin |].
        apply elem_of_cons in Hin as [Hin | Hin]; [discriminate Hin |].
        apply list_elem_of_singleton in Hin. by injection Hin as -> -> -> ->.
      * apply elem_of_cons in Hin as [Hin | Hin]; [discriminate Hin |].
        apply list_elem_of_singleton in Hin. by injection Hin as -> -> -> ->.
    + destruct Hcases as (_ & -> & _).
      apply list_elem_of_singleton in Hin. discriminate Hin.
Qed.

(** ** [multipart_upload]: a missing file, and the bytes that are sent *)



Lemma enumerate_fst {A} (items : list A) start :
  (enumerate items start).*1
  = (fun i => start + Z.of_nat i) <$> seq 0 (length items).
Proof.
  revert start. induction items as [|x items IH]; intros start; [done |].
  simpl. rewrite IH, Z.add_0_r. f_equal.
  rewrite <- (fmap_S_seq 0), <- list_fmap_compose.
  apply list_fmap_ext. intros i x0 _. simpl. lia.
Qed.

Lemma enumerate_snd {A} (items : list A) start :
  (enumerate items start).*2 = items.
Proof.
  revert start. induction items as [|x items IH]; intros start; [done |].
  simpl. by rewrite IH.
Qed.

Lemma omap_skip {B} (f : event -> option B) ev evs :
  f ev = None -> omap f (ev :: evs) = omap f evs.
Proof.
  intros Hev. change (omap f (ev :: evs))
    with (match f ev with Some x => x :: omap f evs | None => omap f evs end).
  by rewrite Hev.
Qed.

Lemma sent_body_part_events b key uid items outs :
  omap sent_body (part_events b key uid items outs)
  = take (length outs) (items.*2).
Proof.
  unfold part_events. revert outs.
  induction items as [|it items IH]; intros [|out outs]; try done.
  simpl. f_equal. apply IH.
Qed.

Lemma sent_number_part_events b key uid items outs :
  omap sent_number (part_events b key uid items outs)
  = take (length outs) (items.*1).
Proof.
  unfold part_events. revert outs.
  induction items as [|it items IH]; intros [|out outs]; try done.
  simpl. f_equal. apply IH.
Qed.

(** What the part calls of a run carry, for a file that is in place: the
    first [k] chunks of the file under the numbers 1..k, with [k] the number
    of chunks when the run returned the object path. *)
Lemma mp_outcome_sent file_path b key object_name bytes r evs :
  mp_outcome file_path b key object_name (Some bytes) r evs ->
  exists k,
    omap sent_body evs = take k (iter_read chunk_size bytes) /\
    omap sent_number evs
    = take k ((fun i => 1 + Z.of_nat i)
              <$> seq 0 (length (iter_read chunk_size bytes))) /\
    (forall path, r = Returns (Some path) ->
                  (length (iter_read chunk_size bytes) <= k)%nat).
Proof.
  intros Hout.
  assert (Hsplit : forall (B : Type) (f : event -> option B) head uid outs tail,
            f head = None -> omap f tail = [] ->
            omap f (head :: part_events b key uid (numbered_chunks bytes) outs
                    ++ tail)
            = omap f (part_events b key uid (numbered_chunks bytes) outs)).
  { intros B f head uid outs tail Hhead Htail.
    by rewrite omap_skip, omap_app, Htail, app_nil_r. }
  remember (Some bytes) as content eqn:Hcontent.
  destruct Hout as [e | uid oa Hc | uid bytes' etags e oa Hc Hlen
                   | uid bytes' etags e oa Hc Hlen | uid bytes' etags Hc Hlen];
    subst content; try discriminate Hc; try injection Hc as <-.
  - exists 0%nat. split_and!; [done | done |]. intros path Hr. discriminate Hr.
  - exists (length ((Returns <$> etags) ++ [Raises e] : list (result string))).
    rewrite !Hsplit by reflexivity.
    rewrite sent_body_part_events, sent_number_part_events.
    unfold numbered_chunks. rewrite enumerate_fst, enumerate_snd.
    split_and!; [done | done |].
    intros path Hr. destruct oa; discriminate Hr.
  - exists (length (Returns <$> etags : list (result string))).
    rewrite !Hsplit by reflexivity.
    rewrite sent_body_part_events, sent_number_part_events.
    unfold numbered_chunks. rewrite enumerate_fst, enumerate_snd.
    split_and!; [done | done |].
    intros path Hr. destruct oa; discriminate Hr.
  - exists (length (Returns <$> etags : list (result string))).
    rewrite !Hsplit by reflexivity.
    rewrite sent_body_part_events, sent_number_part_events.
    unfold numbered_chunks. rewrite enumerate_fst, enumerate_snd.
    split_and!; [done | done |].
    intros path _. rewrite length_fmap, Hlen.
    unfold numbered_chunks. by rewrite enumerate_length.
Qed.

(** X5: the parts [multipart_upload] sends are the file and nothing else.
    In every run the bodies of the [upload_part] calls, put end to end, are
    a prefix of the file's bytes, and the calls carry the numbers 1, 2, 3,
    ... without a gap; when the object path is returned the bodies are
    the whole file. *)
Theorem multipart_upload_sends_the_file env file_path b folder object_name w
    content :
  fs w !! file_path = Some content ->
  let evs := events_of (multipart_upload env file_path b folder object_name) w in
  concat (omap sent_body evs) `prefix_of` content /\
  omap sent_number evs
  = (fun i => 1 + Z.of_nat i) <$> seq 0 (length (omap sent_number evs)) /\
  (forall path,
     (multipart_upload env file_path b folder object_name w).1
       = Returns (Some path) ->
     concat (omap sent_body evs) = content).
Proof.
  intros Hfile evs.
  pose proof (multipart_upload_outcome env file_path b folder object_name w)
    as Hout.
  fold evs in Hout. rewrite Hfile in Hout.
  apply mp_outcome_sent in Hout as (k & -> & -> & Hall).
  assert (Hcat : concat (iter_read chunk_size content) = content)
    by apply iter_read_concat, chunk_size_pos.
  split_and!.
  - exists (concat (drop k (iter_read chunk_size content))).
    by rewrite <- concat_app, take_drop.
  - by rewrite <- fmap_take, take_seq, length_fmap, length_seq.
  - intros path Hr. rewrite take_ge by by eapply Hall. exact Hcat.
Qed.

Lemma multipart_upload_sends_the_file_witness :
  concat (omap sent_body
            (events_of (multipart_upload Scenario.part_rejected "cat.JPG"
                          Scenario.bucket Scenario.folder "cat.JPG")
               (Scenario.on_disk Scenario.cat_jpg)))
    `prefix_of` data Scenario.cat_jpg.
Proof.
  destruct (multipart_upload_sends_the_file Scenario.part_rejected "cat.JPG"
              Scenario.bucket Scenario.folder "cat.JPG"
              (Scenario.on_disk Scenario.cat_jpg) (data Scenario.cat_jpg))
    as (Hprefix & _).
  - vm_compute. reflexivity.
  - exact Hprefix.
Defined.

(** ** The gallery page *)

Lemma append_assoc s t u : (s +:+ t) +:+ u = s +:+ (t +:+ u).
Proof.
  induction s as [|c s IH]; [done |]. rewrite !append_cons. by rewrite IH.
Qed.

Lemma html_content_entries links :
  html_content links
  = html_head
    +:+ foldr (fun link rest => html_entry link +:+ rest) html_tail links.
Proof.
  unfold html_content. generalize html_head.
  induction links as [|link links IH]; intros page; [done |].
  simpl. by rewrite IH, append_assoc.
Qed.

Lemma occurs_in_after needle before s :
  occurs_in needle s -> occurs_in needle (before +:+ s).
Proof.
  intros (b1 & a1 & ->). exists (before +:+ b1), a1. by rewrite append_assoc.
Qed.

Lemma html_entry_image link :
  occurs_in ("<img src=" +:+ Py.dq +:+ link +:+ Py.dq) (html_entry link).
Proof.
  unfold html_entry. do 12 apply occurs_in_after.
  assert (Hgap : ">
                <img src=" = ">
                " +:+ "<img src=") by reflexivity.
  rewrite Hgap. eexists ">
                ", _.
  rewrite !append_assoc. reflexivity.
Qed.

Lemma occurs_in_before needle s after :
  occurs_in needle s -> occurs_in needle (s +:+ after).
Proof.
  intros (b1 & a1 & ->). exists b1, (a1 +:+ after). by rewrite !append_assoc.
Qed.

Lemma entries_show_link links link tail :
  link ∈ links ->
  occurs_in ("<img src=" +:+ Py.dq +:+ link +:+ Py.dq)
    (foldr (fun link rest => html_entry link +:+ rest) tail links).
Proof.
  induction links as [|link' links IH]; intros Hin;
    [by apply elem_of_nil in Hin |].
  change (foldr (fun link rest => html_entry link +:+ rest) tail
            (link' :: links))
    with (html_entry link'
          +:+ foldr (fun link rest => html_entry link +:+ rest) tail links).
  apply elem_of_cons in Hin as [<- | Hin].
  - apply occurs_in_before, html_entry_image.
  - by apply occurs_in_after, IH.
Qed.

Lemma entries_end_with_tail links tail :
  exists body,
    foldr (fun link rest => html_entry link +:+ rest) tail links
    = body +:+ tail.
Proof.
  induction links as [|link links [body IH]].
  - by exists EmptyString.
  - exists (html_entry link +:+ body).
    change (foldr (fun link rest => html_entry link +:+ rest) tail
              (link :: links))
      with (html_entry link
            +:+ foldr (fun link rest => html_entry link +:+ rest) tail links).
    by rewrite IH, append_assoc.
Qed.

(** X6: the page [create_preview_html] builds opens with the fixed head,
    closes with the fixed tail, and holds, for every link of
    [image_links], an image tag with that link as its source. *)
Theorem html_content_shows_every_link links :
  (exists body, html_content links = html_head +:+ body +:+ html_tail) /\
  (forall link, link ∈ links ->
     occurs_in ("<img src=" +:+ Py.dq +:+ link +:+ Py.dq) (html_content links)).
Proof.
  rewrite html_content_entries. split.
  - destruct (entries_end_with_tail links html_tail) as [body ->].
    by exists body.
  - intros link Hin. by apply occurs_in_after, entries_show_link.
Qed.

(** X7: [create_preview_html] writes the page to the local file
    [gallery.html] and sends those same bytes under the key
    [folder/gallery.html].  When the bucket accepts them the local file is
    removed, also when a [gallery.html] was there before the call; when the
    upload raises, the exception leaves the function and the page stays on
    disk. *)
Theorem create_preview_html_local_file env image_links b folder w :
  let page := String.list_byte_of_string (html_content image_links) in
  let run := create_preview_html env image_links b folder w in
  (exists out,
     events_of (create_preview_html env image_links b folder) w
     = EvWrite "gallery.html" page
       :: EvUploadFile "gallery.html" b (folder +:+ "/gallery.html")
            "text/html" page out
       :: (if returned out then [EvRemove "gallery.html"] else [])) /\
  (forall path, run.1 = Returns path ->
     path = folder +:+ "/gallery.html" /\
     fs run.2 = delete "gallery.html" (fs w)) /\
  (forall e, run.1 = Raises e ->
     fs run.2 = <["gallery.html" := page]> (fs w)).
Proof.
  intros page run. unfold run.
  assert (Hev : forall evs,
            trace (create_preview_html env image_links b folder w).2
              = trace w ++ evs ->
            events_of (create_preview_html env image_links b folder) w = evs)
    by apply events_of_app.
  revert Hev. rewrite create_preview_html_run. fold page.
  unfold gallery_key, gallery_steps. fold page.
  destruct (s3_upload_file env _ _ _ _ _ _) as [[] | e]; intros Hev.
  - split_and!.
    + exists (Returns tt). by apply Hev.
    + by intros path [= <-].
    + intros e He. discriminate He.
  - split_and!.
    + exists (Raises e). by apply Hev.
    + intros path Hp. discriminate Hp.
    + by intros e' _.
Qed.

(** ** Keys and content types *)


Lemma slice_from_add n m s :
  Py.slice_from (n + m) s = Py.slice_from m (Py.slice_from n s).
Proof.
  revert s. induction n as [|n IH]; intros s; [done |].
  destruct s as [|c s]; simpl; [by destruct m | apply IH].
Qed.

Lemma endswith_slice s suffix :
  Py.endswith s suffix = true ->
  Py.slice_from (String.length s - String.length suffix) s = suffix /\
  (String.length suffix <= String.length s)%nat.
Proof.
  unfold Py.endswith. rewrite andb_true_iff, Nat.leb_le, String.eqb_eq. tauto.
Qed.

(** X9: a name that ends, whatever the case of its letters, with ".png" is
    uploaded with ContentType "image/png": with C8, each of the three
    extensions the form accepts gets its own MIME type. *)
Theorem content_type_png object_name :
  ends_with_ci object_name ".png" ->
  content_type object_name = "image/png".
Proof.
  rewrite <- endswith_lower_iff. intros Hpng.
  apply endswith_slice in Hpng as [Hpng Hlen].
  unfold content_type.
  destruct (Py.endswith (Py.lower object_name) ".jpg") eqn:Hjpg.
  { apply endswith_slice in Hjpg as [Hjpg _].
    simpl String.length in *. rewrite Hpng in Hjpg. discriminate Hjpg. }
  destruct (Py.endswith (Py.lower object_name) ".jpeg") eqn:Hjpeg; [| done].
  apply endswith_slice in Hjpeg as [Hjpeg Hlen'].
  simpl String.length in *. exfalso.
  replace (String.length (Py.lower object_name) - 4)%nat
    with ((String.length (Py.lower object_name) - 5) + 1)%nat in Hpng by lia.
  rewrite slice_from_add, Hjpeg in Hpng. discriminate Hpng.
Qed.

Lemma content_type_png_witness : content_type "dog.PNG" = "image/png".
Proof.
  apply content_type_png. exists "dog", ".PNG". split; reflexivity.
Defined.

(** ** The form *)

Lemma lstrip_space cp rest :
  cp ∈ space_code_points -> Py.lstrip (utf8 cp +:+ rest) = Py.lstrip rest.
Proof.
  unfold space_code_points. intros Hcp.
  repeat (apply elem_of_cons in Hcp as [-> | Hcp]; [reflexivity |]).
  by apply elem_of_nil in Hcp.
Qed.

Lemma lstrip_blank s : blank s -> Py.lstrip s = EmptyString.
Proof.
  intros (cps & Hall & ->).
  induction Hall as [|cp cps Hcp _ IH]; [done |].
  simpl foldr. by rewrite lstrip_space.
Qed.

(** A no-break space and an ideographic space are white space too. *)
Example blank_beyond_ascii : blank (utf8 160 +:+ " " +:+ utf8 12288).
Proof.
  exists [160; 32; 12288]%N. split; [| reflexivity].
  repeat (apply Forall_cons; split;
          [unfold space_code_points; set_solver |]).
  apply Forall_nil_2.
Qed.

(** X10: pressing Upload with a blank bucket name (empty, or white-space
    characters only, those of ASCII as well as the others [str.strip]
    removes), or with a name that is not blank and no file chosen, calls
    nothing and touches no local file: the form only shows its error or its
    warning. *)
Theorem on_upload_without_input env bucket_name uploaded_files w :
  (blank bucket_name ->
   on_upload env bucket_name uploaded_files w
   = (Returns [st_error "Please enter a valid bucket name."], w)) /\
  (Py.truthy (Py.strip bucket_name) = true -> uploaded_files = [] ->
   on_upload env bucket_name uploaded_files w
   = (Returns [st_warning "Please upload at least one file."], w)).
Proof.
  unfold on_upload. split.
  - intros Hblank. unfold Py.strip. by rewrite (lstrip_blank _ Hblank).
  - by intros -> ->.
Qed.

(** ** Runs of [upload_multiple_images_to_s3] left by an exception *)

Section Left.

Variable env : Services.



End Left.




(** ** What the gallery lists, and what the form reports *)

Section Links.

Variables b folder : string.

Lemma presign_events_links key out presigned_url :
  presign_result out = Returns presigned_url ->
  kept presigned_url
  = filter (fun url => Py.truthy url = true)
      ((omap presigned (presign_events b key out)).*2).
Proof.
  unfold presign_result, presign_events.
  destruct out as [url | e].
  - intros [= <-]. simpl. rewrite filter_cons.
    destruct (decide (Py.truthy url = true)) as [-> | Hno]; [done |].
    by destruct (Py.truthy url).
  - destruct (exn_class_of e); [| intros Hr; discriminate Hr].
    by intros [= <-].
Qed.

Lemma file_steps_links file added evs :
  file_steps b folder file added evs ->
  added = filter (fun url => Py.truthy url = true) ((omap presigned evs).*2).
Proof.
  destruct 1 as [mp Hmp | mp out u Hmp Hres].
  - rewrite omap_skip by reflexivity. rewrite omap_app.
    by rewrite (mp_outcome_presigned _ _ _ _ _ _ _ Hmp).
  - rewrite omap_skip by reflexivity. rewrite !omap_app.
    rewrite (mp_outcome_presigned _ _ _ _ _ _ _ Hmp).
    rewrite app_nil_l, app_nil_r. by apply presign_events_links.
Qed.

Lemma loop_steps_links files added evs :
  loop_steps b folder files added evs ->
  added = filter (fun url => Py.truthy url = true) ((omap presigned evs).*2).
Proof.
  induction 1 as [|file files added evs added' evs' Hfile _ IH]; [done |].
  rewrite omap_app, fmap_app, filter_app.
  by rewrite <- IH, <- (file_steps_links _ _ _ Hfile).
Qed.

Lemma loop_steps_attempts files added evs file :
  loop_steps b folder files added evs ->
  file ∈ files ->
  exists out,
    EvCreateMultipartUpload b (object_key folder file)
      (content_type (name file)) out ∈ evs /\
    EvRemove (name file) ∈ evs.
Proof.
  induction 1 as [|file' files added evs added' evs' Hfile _ IH];
    intros Hin; [by apply elem_of_nil in Hin |].
  apply elem_of_cons in Hin as [-> | Hin].
  - assert (Hhere : exists out,
              EvCreateMultipartUpload b (object_key folder file')
                (content_type (name file')) out ∈ evs /\
              EvRemove (name file') ∈ evs).
    { destruct Hfile as [mp Hmp | mp out u Hmp Hres];
        apply mp_outcome_layout in Hmp
          as (out' & parts_sent & tail & -> & _ & _);
        exists out'; split.
      - apply elem_of_cons. right. apply elem_of_cons. by left.
      - apply elem_of_cons. right. apply elem_of_app. right.
        by apply list_elem_of_singleton.
      - apply elem_of_cons. right. apply elem_of_cons. by left.
      - apply elem_of_cons. right. apply elem_of_app. right.
        apply elem_of_app. right. by apply list_elem_of_singleton. }
    destruct Hhere as (out & Hc & Hr). exists out.
    split; apply elem_of_app; by left.
  - destruct (IH Hin) as (out & Hc & Hr). exists out.
    split; apply elem_of_app; by right.
Qed.

End Links.

(** X12: when [upload_multiple_images_to_s3] returns, the gallery page it
    wrote lists exactly the non-empty pre-signed URLs obtained for the
    submitted files, in the order in which they were obtained. *)
Theorem gallery_lists_the_urls env files b w r w' :
  upload_multiple_images_to_s3 env files b w = (Returns r, w') ->
  exists loop_evs tail,
    events_of (upload_multiple_images_to_s3 env files b) w
    = EvUuid4 (uuid4 env (trace w)) :: loop_evs
      ++ EvWrite "gallery.html"
           (String.list_byte_of_string
              (html_content
                 (filter (fun url => Py.truthy url = true)
                    ((omap presigned loop_evs).*2))))
         :: tail /\
    Forall (fun ev => forall content, ev <> EvWrite "gallery.html" content)
      tail.
Proof.
  intros Hrun. pose proof Hrun as Hrun'.
  apply upload_multiple_run in Hrun' as (evs & Htr & Hsession & _).
  assert (Hevs : events_of (upload_multiple_images_to_s3 env files b) w
                 = EvUuid4 (uuid4 env (trace w)) :: evs).
  { apply events_of_app. by rewrite Hrun. }
  rewrite Hevs. clear Hrun Htr Hevs.
  remember (Returns r) as res eqn:Hres.
  destruct Hsession
    as [? ? ? ? ? ? ? _ _ _ | ? ? ? _ | image_links loop_evs out Hsteps];
    try discriminate Hres.
  apply loop_steps_links in Hsteps as ->.
  eexists loop_evs, _. split; [reflexivity |].
  apply Forall_cons. split; [intros content Heq; discriminate Heq |].
  apply Forall_cons. split; [intros content Heq; discriminate Heq |].
  unfold presign_events.
  apply Forall_cons. split; [intros content Heq; discriminate Heq |].
  destruct out as [url | e]; [apply Forall_nil_2 |].
  destruct (exn_class_of e); [| apply Forall_nil_2].
  apply Forall_cons. split; [intros content Heq; discriminate Heq |].
  apply Forall_nil_2.
Qed.

Lemma gallery_lists_the_urls_witness :
  exists loop_evs tail,
    events_of (upload_multiple_images_to_s3 Scenario.all_ok
                 [Scenario.cat_jpg; Scenario.dog_png] Scenario.bucket)
      Scenario.w0
    = EvUuid4 (uuid4 Scenario.all_ok (trace Scenario.w0)) :: loop_evs
      ++ EvWrite "gallery.html"
           (String.list_byte_of_string
              (html_content
                 (filter (fun url => Py.truthy url = true)
                    ((omap presigned loop_evs).*2))))
         :: tail /\
    Forall (fun ev => forall content, ev <> EvWrite "gallery.html" content)
      tail.
Proof.
  apply (gallery_lists_the_urls Scenario.all_ok
           [Scenario.cat_jpg; Scenario.dog_png] Scenario.bucket Scenario.w0
           (Some ("https://s3.example/" +:+ Scenario.folder
                  +:+ "/gallery.html?sig"))
           (upload_multiple_images_to_s3 Scenario.all_ok
              [Scenario.cat_jpg; Scenario.dog_png] Scenario.bucket
              Scenario.w0).2).
  vm_compute. reflexivity.
Defined.

(** X13: when [upload_multiple_images_to_s3] returns, no submitted file
    was skipped: for each of them, whatever happened to the files before
    it, the multipart upload was requested under its own key and content
    type, and its temporary copy was removed. *)
Theorem every_file_is_attempted env files b w r w' file :
  upload_multiple_images_to_s3 env files b w = (Returns r, w') ->
  file ∈ files ->
  let evs := events_of (upload_multiple_images_to_s3 env files b) w in
  let folder := "uploads/" +:+ uuid4 env (trace w) in
  exists out,
    EvCreateMultipartUpload b (folder +:+ "/" +:+ name file)
      (content_type (name file)) out ∈ evs /\
    EvRemove (name file) ∈ evs.
Proof.
  intros Hrun Hin evs folder. unfold evs. pose proof Hrun as Hrun'.
  apply upload_multiple_run in Hrun' as (evs' & Htr & Hsession & _).
  assert (Hevs : events_of (upload_multiple_images_to_s3 env files b) w
                 = EvUuid4 (uuid4 env (trace w)) :: evs').
  { apply events_of_app. by rewrite Hrun. }
  rewrite Hevs. clear Hrun Htr Hevs.
  remember (Returns r) as res eqn:Hres.
  destruct Hsession
    as [? ? ? ? ? ? ? _ _ _ | ? ? ? _ | image_links loop_evs out Hsteps];
    try discriminate Hres.
  destruct (loop_steps_attempts _ _ _ _ _ _ Hsteps Hin) as (out' & Hc & Hr).
  exists out'. unfold object_key in Hc.
  split; apply elem_of_cons; right; apply elem_of_app; by left.
Qed.

Lemma every_file_is_attempted_witness :
  exists out,
    EvCreateMultipartUpload Scenario.bucket
      (("uploads/" +:+ uuid4 Scenario.create_denied (trace Scenario.w0))
       +:+ "/" +:+ name Scenario.dog_png)
      (content_type (name Scenario.dog_png)) out
      ∈ events_of (upload_multiple_images_to_s3 Scenario.create_denied
                     [Scenario.cat_jpg; Scenario.dog_png] Scenario.bucket)
          Scenario.w0 /\
    EvRemove (name Scenario.dog_png)
      ∈ events_of (upload_multiple_images_to_s3 Scenario.create_denied
                     [Scenario.cat_jpg; Scenario.dog_png] Scenario.bucket)
          Scenario.w0.
Proof.
  apply (every_file_is_attempted Scenario.create_denied
           [Scenario.cat_jpg; Scenario.dog_png] Scenario.bucket Scenario.w0
           (Some ("https://s3.example/" +:+ Scenario.folder
                  +:+ "/gallery.html?sig"))
           (upload_multiple_images_to_s3 Scenario.create_denied
              [Scenario.cat_jpg; Scenario.dog_png] Scenario.bucket
              Scenario.w0).2).
  - vm_compute. reflexivity.
  - apply elem_of_cons. right. by apply list_elem_of_singleton.
Defined.

(** X14: the form shows "Failed to generate a preview link." only after
    every step up to the storing of the gallery page has been carried out:
    the page is in the bucket and its local copy removed, and the URL
    request for the page either raised a [ClientError] or gave an empty
    URL. *)
Theorem on_upload_failure_message env bucket_name uploaded_files w :
  (on_upload env bucket_name uploaded_files w).1
    = Returns [st_error "Failed to generate a preview link."] ->
  let folder := "uploads/" +:+ uuid4 env (trace w) in
  exists image_links loop_evs out,
    loop_steps bucket_name folder uploaded_files image_links loop_evs /\
    events_of (on_upload env bucket_name uploaded_files) w
    = EvUuid4 (uuid4 env (trace w))
      :: loop_evs ++ gallery_steps bucket_name folder image_links
      ++ presign_events bucket_name (gallery_key folder) out /\
    (out = Returns EmptyString \/
     exists e, out = Raises e /\ exn_class_of e = ClientError).
Proof.
  unfold events_of, on_upload.
  destruct (negb (Py.truthy (Py.strip bucket_name)));
    [intros Hr; discriminate Hr |].
  destruct uploaded_files as [|file files]; [intros Hr; discriminate Hr |].
  rewrite bind_run.
  destruct (upload_multiple_images_to_s3 env (file :: files) bucket_name w)
    as [r w'] eqn:Hrun.
  apply upload_multiple_run in Hrun as (evs & Htr & Hsession & _).
  assert (Hcases : r = Returns None \/ r = Returns (Some EmptyString) ->
    let folder := "uploads/" +:+ uuid4 env (trace w) in
    exists image_links loop_evs out,
      loop_steps bucket_name folder (file :: files) image_links loop_evs /\
      drop (length (trace w)) (trace w')
      = EvUuid4 (uuid4 env (trace w))
        :: loop_evs ++ gallery_steps bucket_name folder image_links
        ++ presign_events bucket_name (gallery_key folder) out /\
      (out = Returns EmptyString \/
       exists e, out = Raises e /\ exn_class_of e = ClientError)).
  { intros Hr folder. rewrite Htr, drop_app_length. fold folder in Hsession.
    clear Htr.
    destruct Hsession
      as [? ? ? ? ? e ? _ _ _ | ? ? e _ | image_links loop_evs out Hsteps].
    - destruct Hr as [Hr | Hr]; discriminate Hr.
    - destruct Hr as [Hr | Hr]; discriminate Hr.
    - exists image_links, loop_evs, out. split; [done |]. split; [done |].
      unfold presign_result in Hr. destruct out as [url | e].
      + left. destruct Hr as [Hr | Hr]; [discriminate Hr | by injection Hr as ->].
      + right. exists e. split; [done |].
        destruct (exn_class_of e); [done |].
        destruct Hr as [Hr | Hr]; discriminate Hr. }
  destruct r as [[link |] | e].
  - destruct link as [|c link]; simpl.
    + intros _. apply Hcases. by right.
    + intros Hr. discriminate Hr.
  - simpl. intros _. apply Hcases. by left.
  - simpl. intros Hr. discriminate Hr.
Qed.

Lemma on_upload_failure_message_witness :
  let folder :=
    "uploads/" +:+ uuid4 Scenario2.url_denied (trace Scenario.w0) in
  exists image_links loop_evs out,
    loop_steps Scenario.bucket folder [Scenario.cat_jpg] image_links loop_evs /\
    events_of (on_upload Scenario2.url_denied Scenario.bucket
                 [Scenario.cat_jpg]) Scenario.w0
    = EvUuid4 (uuid4 Scenario2.url_denied (trace Scenario.w0))
      :: loop_evs ++ gallery_steps Scenario.bucket folder image_links
      ++ presign_events Scenario.bucket (gallery_key folder) out /\
    (out = Returns EmptyString \/
     exists e, out = Raises e /\ exn_class_of e = ClientError).
Proof.
  apply (on_upload_failure_message Scenario2.url_denied Scenario.bucket
           [Scenario.cat_jpg] Scenario.w0).
  vm_compute. reflexivity.
Defined.

(** ** The face script: where it stops *)

Section FaceStops.

Context {image : Type} (lib : FaceDetection.Library image).

(** X15: when the facial area of the first image does not have exactly
    four values, the script stops at the unpacking: both [verify] calls and
    the first [print] have happened, no image is loaded, drawn on or shown
    and [find] is not called. *)
Theorem face_script_stops_at_unpacking out1 out2 :
  FaceDetection.verify lib FaceDetection.p_modi1 FaceDetection.p_modi2
    = Returns out1 ->
  FaceDetection.verify lib FaceDetection.p_modi1 FaceDetection.p_trump
    = Returns out2 ->
  length (FaceDetection.facial_areas_img1 out1) <> 4%nat ->
  (exists e, (FaceDetection.main lib []).1 = Raises e) /\
  (FaceDetection.main lib []).2 =
    [FaceDetection.DeepFace_verify FaceDetection.p_modi1
       FaceDetection.p_modi2 (Returns out1);
     FaceDetection.DeepFace_verify FaceDetection.p_modi1
       FaceDetection.p_trump (Returns out2);
     FaceDetection.Print
       [FaceDetection.PVerify out1; FaceDetection.PStr "OUT 1"]].
Proof.
  intros Hv1 Hv2 Hlen.
  unfold FaceDetection.main, FaceDetection.sbind, FaceDetection.lib_call,
    FaceDetection.act.
  rewrite Hv1, Hv2.
  destruct (FaceDetection.facial_areas_img1 out1)
    as [|x [|y [|w0 [|h [|v rest]]]]]; simpl in *; try lia; eauto.
Qed.

(** X16: the script shows an image exactly when both [verify] calls
    return, the facial area of the first image has exactly four values and
    [cv2.imread] loads the image; the image shown is then the one
    [cv2.rectangle] gave back for the corners [(x, y)] and
    [(x + w, y + h)], and no other image is shown. *)
Theorem face_script_shows_image_iff :
  ((exists img, FaceDetection.cv2_imshow img ∈ (FaceDetection.main lib []).2)
   <->
   (exists out1 out2 x y w h ig0,
      FaceDetection.verify lib FaceDetection.p_modi1 FaceDetection.p_modi2
        = Returns out1 /\
      FaceDetection.verify lib FaceDetection.p_modi1 FaceDetection.p_trump
        = Returns out2 /\
      FaceDetection.facial_areas_img1 out1 = [x; y; w; h] /\
      FaceDetection.imread lib FaceDetection.p_modi1 = Some ig0)) /\
  (forall img,
     FaceDetection.cv2_imshow img ∈ (FaceDetection.main lib []).2 ->
     exists out1 x y w h ig0,
       FaceDetection.verify lib FaceDetection.p_modi1 FaceDetection.p_modi2
         = Returns out1 /\
       FaceDetection.facial_areas_img1 out1 = [x; y; w; h] /\
       FaceDetection.imread lib FaceDetection.p_modi1 = Some ig0 /\
       img = FaceDetection.rectangle lib ig0 (x, y) (x + w, y + h)
               (0, 0, 255) 3).
Proof.
  assert (Hno : forall (img : image) l,
            Forall (fun a => ~ is_imshow a) l ->
            FaceDetection.cv2_imshow img ∈ l -> False).
  { intros img' l Hall Hin. rewrite Forall_forall in Hall.
    by apply (Hall _ Hin). }
  assert (Hshown : forall img,
    FaceDetection.cv2_imshow img ∈ (FaceDetection.main lib []).2 ->
    exists out1 out2 x y w h ig0,
      FaceDetection.verify lib FaceDetection.p_modi1 FaceDetection.p_modi2
        = Returns out1 /\
      FaceDetection.verify lib FaceDetection.p_modi1 FaceDetection.p_trump
        = Returns out2 /\
      FaceDetection.facial_areas_img1 out1 = [x; y; w; h] /\
      FaceDetection.imread lib FaceDetection.p_modi1 = Some ig0 /\
      img = FaceDetection.rectangle lib ig0 (x, y) (x + w, y + h)
              (0, 0, 255) 3).
  { intros img.
    unfold FaceDetection.main, FaceDetection.sbind, FaceDetection.lib_call,
      FaceDetection.act, FaceDetection.load.
    destruct (FaceDetection.verify lib FaceDetection.p_modi1
                FaceDetection.p_modi2) as [out1 | e1]; simpl;
      [| intros Hin; exfalso; revert Hin; apply Hno;
         repeat constructor; simpl; tauto].
    destruct (FaceDetection.verify lib FaceDetection.p_modi1
                FaceDetection.p_trump) as [out2 | e2]; simpl;
      [| intros Hin; exfalso; revert Hin; apply Hno;
         repeat constructor; simpl; tauto].
    destruct (FaceDetection.facial_areas_img1 out1)
      as [|x [|y [|w0 [|h [|v rest]]]]] eqn:Harea; simpl;
      try (intros Hin; exfalso; revert Hin; apply Hno;
           repeat constructor; simpl; tauto).
    destruct (FaceDetection.imread lib FaceDetection.p_modi1)
      as [ig0 |] eqn:Himg; simpl;
      [| intros Hin; exfalso; revert Hin; apply Hno;
         repeat constructor; simpl; tauto].
    intros Hin. exists out1, out2, x, y, w0, h, ig0.
    split_and!; try done.
    assert (Hshape : exists tail,
      FaceDetection.cv2_imshow img
        ∈ [FaceDetection.DeepFace_verify FaceDetection.p_modi1
             FaceDetection.p_modi2 (Returns out1);
           FaceDetection.DeepFace_verify FaceDetection.p_modi1
             FaceDetection.p_trump (Returns out2);
           FaceDetection.Print
             [FaceDetection.PVerify out1; FaceDetection.PStr "OUT 1"];
           FaceDetection.Print
             [FaceDetection.PInt x; FaceDetection.PInt y;
              FaceDetection.PInt w0; FaceDetection.PInt h];
           FaceDetection.cv2_imread FaceDetection.p_modi1 (Some ig0);
           FaceDetection.cv2_rectangle ig0 (x, y) (x + w0, y + h)
             (0, 0, 255) 3;
           FaceDetection.cv2_imshow
             (FaceDetection.rectangle lib ig0 (x, y) (x + w0, y + h)
                (0, 0, 255) 3)] ++ tail /\
      Forall (fun a => ~ is_imshow a) tail).
    { destruct (FaceDetection.find lib FaceDetection.p_modi1
                  FaceDetection.p_fold) as [[|frame frames] | e3];
        simpl in Hin; eexists; (split; [exact Hin |]);
        repeat constructor; simpl; tauto. }
    destruct Hshape as (tail & Hmem & Htail).
    apply elem_of_app in Hmem as [Hmem | Hmem];
      [| exfalso; by apply (Hno img tail)].
    do 6 (apply elem_of_cons in Hmem as [Heq | Hmem]; [discriminate Heq |]).
    apply list_elem_of_singleton in Hmem. by injection Hmem. }
  split; [split |].
  - intros [img Hin].
    destruct (Hshown img Hin)
      as (out1 & out2 & x & y & w0 & h & ig0 & H1 & H2 & H3 & H4 & _).
    by exists out1, out2, x, y, w0, h, ig0.
  - intros (out1 & out2 & x & y & w0 & h & ig0 & Hv1 & Hv2 & Harea & Himg).
    exists (FaceDetection.rectangle lib ig0 (x, y) (x + w0, y + h)
              (0, 0, 255) 3).
    unfold FaceDetection.main, FaceDetection.sbind, FaceDetection.lib_call,
      FaceDetection.act, FaceDetection.load.
    rewrite Hv1, Hv2, Harea, Himg. simpl.
    destruct (FaceDetection.find lib FaceDetection.p_modi1
                FaceDetection.p_fold) as [[|frame frames] | e3]; simpl;
      do 6 (apply elem_of_cons; right); apply elem_of_cons; by left.
  - intros img Hin.
    destruct (Hshown img Hin)
      as (out1 & out2 & x & y & w0 & h & ig0 & H1 & _ & H3 & H4 & H5).
    by exists out1, x, y, w0, h, ig0.
Qed.

(** X17: the script runs to its end exactly when, in addition, [find]
    returns at least one frame. *)
Theorem face_script_completes_iff :
  (FaceDetection.main lib []).1 = Returns tt
  <->
  (exists out1 out2 x y w h ig0 frame frames,
     FaceDetection.verify lib FaceDetection.p_modi1 FaceDetection.p_modi2
       = Returns out1 /\
     FaceDetection.verify lib FaceDetection.p_modi1 FaceDetection.p_trump
       = Returns out2 /\
     FaceDetection.facial_areas_img1 out1 = [x; y; w; h] /\
     FaceDetection.imread lib FaceDetection.p_modi1 = Some ig0 /\
     FaceDetection.find lib FaceDetection.p_modi1 FaceDetection.p_fold
       = Returns (frame :: frames)).
Proof.
  unfold FaceDetection.main, FaceDetection.sbind, FaceDetection.lib_call,
    FaceDetection.act, FaceDetection.load.
  split.
  - destruct (FaceDetection.verify lib FaceDetection.p_modi1
                FaceDetection.p_modi2) as [out1 | e1]; simpl;
      [| intros Hr; discriminate Hr].
    destruct (FaceDetection.verify lib FaceDetection.p_modi1
                FaceDetection.p_trump) as [out2 | e2]; simpl;
      [| intros Hr; discriminate Hr].
    destruct (FaceDetection.facial_areas_img1 out1)
      as [|x [|y [|w0 [|h [|v rest]]]]] eqn:Harea; simpl;
      try (intros Hr; discriminate Hr).
    destruct (FaceDetection.imread lib FaceDetection.p_modi1)
      as [ig0 |] eqn:Himg; simpl; [| intros Hr; discriminate Hr].
    destruct (FaceDetection.find lib FaceDetection.p_modi1
                FaceDetection.p_fold) as [[|frame frames] | e3] eqn:Hfind;
      simpl; try (intros Hr; discriminate Hr).
    intros _. exists out1, out2, x, y, w0, h, ig0, frame, frames.
    by split_and!.
  - intros (out1 & out2 & x & y & w0 & h & ig0 & frame & frames & -> & ->
            & Harea & -> & ->).
    simpl. by rewrite Harea.
Qed.

End FaceStops.

Lemma face_script_stops_at_unpacking_witness :
  (exists e, (FaceDetection.main Scenario2.six_values []).1 = Raises e) /\
  (FaceDetection.main Scenario2.six_values []).2 =
    [FaceDetection.DeepFace_verify FaceDetection.p_modi1
       FaceDetection.p_modi2
       (Returns (FaceDetection.VerifyOut [10; 20; 30; 40; 15; 35]
                   "{'verified': True}"));
     FaceDetection.DeepFace_verify FaceDetection.p_modi1
       FaceDetection.p_trump
       (Returns (FaceDetection.VerifyOut [10; 20; 30; 40; 15; 35]
                   "{'verified': True}"));
     FaceDetection.Print
       [FaceDetection.PVerify
          (FaceDetection.VerifyOut [10; 20; 30; 40; 15; 35]
             "{'verified': True}");
        FaceDetection.PStr "OUT 1"]].
Proof.
  apply (face_script_stops_at_unpacking Scenario2.six_values
           (FaceDetection.VerifyOut [10; 20; 30; 40; 15; 35]
              "{'verified': True}")
           (FaceDetection.VerifyOut [10; 20; 30; 40; 15; 35]
              "{'verified': True}")); [reflexivity | reflexivity |].
  simpl. lia.
Defined.
